(** * PySPOD: the spectral-estimation core of [pyspod/spod_base.py]

    A shallow embedding of the class [SPOD_base]: the parameter resolver
    [parse_parameters], the in-memory data handler of [__init__], the block
    cache probe [_are_blocks_present], the projector [get_coefficients] and
    the emulator data preparer [build_emulator].

    Conventions of the embedding.
    - Python integers are [Z]; a [range(0,n)] loop is a fold over [py_range n].
    - Real-valued floating point quantities whose only role is algebraic
      (time step, frequencies, data samples, pre-cast window length and
      overlap) are exact rationals [Qc], and complex ones pairs of them;
      the one place where binary64 rounding decides an integer result,
      [int(0.7*n_blocks)], is computed with the IEEE-754 model of
      [SpecFloat], as are the constants of the confidence block.
    - Strings are ASCII text.
    - A raised exception is a value of [exn]; a method that may raise returns
      [result].
    - The artifact directory is a finite map from path to stored array.
    - [print] and [tqdm] progress output has no influence on any value and
      is left out, and so are the directories the constructor creates and
      the window gain [1/mean(window)], which no modelled method reads;
      [warnings.warn] is kept, as a log threaded through the resolver. *)

From Stdlib Require Import ZArith QArith Qcanon Qround Lia SpecFloat Ascii.
From stdpp Require Import base gmap strings list numbers pretty.

Open Scope Z_scope.

(** ** Python runtime: exceptions, ranges, string formatting *)

Module Py.

Inductive exn : Type :=
| ValueError (msg : string)
| TypeError (msg : string)
| IndexError (msg : string)
| OverflowError (msg : string)
| IOError (path : string).

Inductive result (A : Type) : Type :=
| Ok (a : A)
| Raise (e : exn).
Arguments Ok {A} a.
Arguments Raise {A} e.

Definition bind {A B : Type} (r : result A) (k : A -> result B) : result B :=
  match r with
  | Ok a => k a
  | Raise e => Raise e
  end.

Definition is_ValueError {A : Type} (r : result A) : Prop :=
  match r with
  | Raise (ValueError _) => True
  | _ => False
  end.

(** [range(0, n)]: empty when [n <= 0]. *)
Definition py_range (n : Z) : list Z :=
  map Z.of_nat (seq 0 (Z.to_nat n)).

(** [for i in l: if p(i): acc = acc + 1], started from [acc = 0]. *)
Definition count_loop (p : Z -> bool) (l : list Z) : Z :=
  fold_left (fun acc i => if p i then acc + 1 else acc) l 0.

Definition zeros (w : nat) : string :=
  fold_right (fun _ s => String "0"%char s) EmptyString (seq 0 w).

(** ['{:04d}'.format(n)]: sign-aware zero padding to width four. *)
Definition fmt04d (n : Z) : string :=
  if n <? 0
  then let d := pretty (Z.abs n) in
       String "-"%char (zeros (3 - String.length d)%nat) +:+ d
  else let d := pretty n in
       zeros (4 - String.length d)%nat +:+ d.

Definition ends_with_slash (s : string) : bool :=
  match rev (String.list_ascii_of_string s) with
  | c :: _ => bool_decide (c = "/"%char)
  | [] => false
  end.

Definition starts_with_slash (s : string) : bool :=
  match s with
  | String c _ => bool_decide (c = "/"%char)
  | EmptyString => false
  end.

(** [os.path.join(a, b)] on a POSIX system. *)
Definition path_join (a b : string) : string :=
  if starts_with_slash b then b
  else if bool_decide (a = EmptyString) || ends_with_slash a then a +:+ b
  else a +:+ "/" +:+ b.

End Py.

#[global] Instance result_ret : MRet Py.result := @Py.Ok.
#[global] Instance result_bind : MBind Py.result :=
  fun A B k r => Py.bind r k.

(** ** Block/Mode artifact cache: [SPOD_base._are_blocks_present] *)

Module Cache.
Import Py.

Definition fft_block_name (iBlk iFreq : Z) : string :=
  "fft_block" +:+ fmt04d iBlk +:+ "_freq" +:+ fmt04d iFreq +:+ ".npy".

Definition fft_block_file (saveDir : string) (iBlk iFreq : Z) : string :=
  path_join saveDir (fft_block_name iBlk iFreq).

(** [os.path.exists] against the set of paths that exist. *)
Definition path_exists (fs : gset string) (file : string) : bool :=
  bool_decide (file ∈ fs).

Definition all_freq_exist (n_freq : Z) (saveDir : string) (fs : gset string)
    (iBlk : Z) : Z :=
  count_loop (fun iFreq => path_exists fs (fft_block_file saveDir iBlk iFreq))
    (py_range n_freq).

Definition _are_blocks_present (n_blocks n_freq : Z) (saveDir : string)
    (fs : gset string) : bool :=
  let all_blocks_exist :=
    count_loop (fun iBlk => all_freq_exist n_freq saveDir fs iBlk =? n_freq)
      (py_range n_blocks) in
  all_blocks_exist =? n_blocks.

End Cache.

(** ** Window/frequency parameter resolver: [SPOD_base.parse_parameters] *)

Module Resolver.
Import Py.

(** A numpy array: its shape and its elements in C order. *)
Record ndarray : Type := mk_ndarray { shape : list Z; elems : list Qc }.

Definition np_size (a : ndarray) : Z := fold_right Z.mul 1 (shape a).

Definition np_reshape (a : ndarray) (new_shape : list Z) : ndarray :=
  {| shape := new_shape; elems := elems a |}.

(** [np.ones([n, 1])] *)
Definition np_ones_col (n : Z) : ndarray :=
  {| shape := [n; 1]; elems := repeat 1%Qc (Z.to_nat n) |}.

(** [params['n_FFT']]: a string, a Python [int], or a numpy value (an array
    of window coefficients, or a numpy scalar, whose [.size] is one). *)
Inductive window_param : Type :=
| WStr (s : string)
| WInt (n : Z)
| WArr (a : list Qc).

(** The window handed back: [_hamming_window(N)], whose samples are
    [0.54 - 0.46*cos(2*pi*x/(N-1))], is kept symbolic. *)
Inductive window_val : Type :=
| Hamming (N : Qc)
| Coeffs (a : list Qc).

Inductive overlap_param : Type :=
| OStr (s : string)
| ONum (q : Qc).

(** [params['mean']]: a string, a numpy array, or a value of another type. *)
Inductive mean_param : Type :=
| MStr (s : string)
| MArr (a : ndarray)
| MOther (type_name : string).

Inductive mean_val : Type :=
| MeanScalar (z : Z)
| MeanArr (a : ndarray).

(** One time frame: the field at one instant, flattened,
    [nx * nv] samples. *)
Definition frame : Type := list Qc.

Record params : Type := mk_params {
  p_nt : Z;
  p_xdim : Z;
  p_nv : Z;
  p_savedir : option string;
  p_n_FFT : window_param;
  p_weights : option ndarray;   (* [None]: key absent, or not an ndarray *)
  p_n_overlap : overlap_param;
  p_dt : Qc;
  p_mean : mean_param;
  p_isreal : option bool;
  p_conf_level : option Qc;
  p_n_modes_save : option Z
}.

(** The mapping with the entry [params['mean']] replaced. *)
Definition with_mean (m : mean_param) (p : params) : params :=
  {| p_nt := p_nt p; p_xdim := p_xdim p; p_nv := p_nv p;
     p_savedir := p_savedir p; p_n_FFT := p_n_FFT p;
     p_weights := p_weights p; p_n_overlap := p_n_overlap p;
     p_dt := p_dt p; p_mean := m; p_isreal := p_isreal p;
     p_conf_level := p_conf_level p; p_n_modes_save := p_n_modes_save p |}.

(** The mapping with the entry [params['conf_level']] replaced. *)
Definition with_conf_level (v : Qc) (p : params) : params :=
  {| p_nt := p_nt p; p_xdim := p_xdim p; p_nv := p_nv p;
     p_savedir := p_savedir p; p_n_FFT := p_n_FFT p;
     p_weights := p_weights p; p_n_overlap := p_n_overlap p;
     p_dt := p_dt p; p_mean := p_mean p; p_isreal := p_isreal p;
     p_conf_level := Some v; p_n_modes_save := p_n_modes_save p |}.

(** The fields of [self] that [parse_parameters] reads. *)
Record spod_self : Type := mk_self {
  nt : Z;
  nx : Z;
  nv : Z;
  variables : list string;
  _data : list frame;
  _data_handler : list frame -> Z -> Z -> list string -> result (list frame)
}.

(** The nine values returned, and the two names only printed. *)
Record spectral_config : Type := mk_config {
  window : window_val;
  weights : ndarray;
  n_overlap : Z;
  n_DFT : Z;
  n_blocks : Z;
  x_mean : mean_val;
  mean_name : string;
  freq : list Qc;
  n_freq : Z;
  window_name : string;
  weights_name : string
}.

(** *** Strings *)

Definition lower_ascii (c : ascii) : ascii :=
  let n := nat_of_ascii c in
  if ((65 <=? n) && (n <=? 90))%nat then ascii_of_nat (n + 32) else c.

(** [str.lower()] on ASCII text. *)
Fixpoint lower (s : string) : string :=
  match s with
  | EmptyString => EmptyString
  | String c s' => String (lower_ascii c) (lower s')
  end.

(** *** Numbers *)

Definition Qcfloor (q : Qc) : Z := Qfloor (this q).
Definition Qcceiling (q : Qc) : Z := Qceiling (this q).

(** [int(x)]: truncation towards zero. *)
Definition py_int (q : Qc) : Z :=
  if bool_decide (q < 0)%Qc then Qcceiling q else Qcfloor q.

(** [floor(log2(q))] for [0 < q]. *)
Definition floor_log2 (q : Qc) : Z :=
  if bool_decide (1 <= q)%Qc then Z.log2 (Qcfloor q)
  else - Z.log2_up (Qcceiling (/ q)%Qc).

(** [2 ** k] for an integral float [k]. *)
Definition pow2 (k : Z) : Qc :=
  if 0 <=? k then Qc_of_Z (2 ^ k) else (/ Qc_of_Z (2 ^ (- k)))%Qc.

(** [_nextpow2(a)]: the [while] loop, bounded by a number of iterations it
    never needs ([nextpow2_spec]). *)
Fixpoint nextpow2_loop (fuel : nat) (a v p : Z) : Z :=
  match fuel with
  | O => p
  | S fuel' =>
      if v <? Z.abs a then nextpow2_loop fuel' a (2 ^ p) (p + 1) else p
  end.

Definition _nextpow2 (a : Z) : Z :=
  nextpow2_loop (Z.to_nat (Z.abs a) + 2) a 0 0.

(** *** The in-memory data handler built by [__init__] *)

(** [np.arange(a, b)] on integers. *)
Definition np_arange (a b : Z) : list Z :=
  map (fun k => a + Z.of_nat k) (seq 0 (Z.to_nat (b - a))).

(** [data[i]] for one index of an index array: negative indices count from
    the end, anything else out of range raises. *)
Definition take_frame (data : list frame) (i : Z) : result frame :=
  let n := Z.of_nat (length data) in
  let j := if i <? 0 then i + n else i in
  if (0 <=? j) && (j <? n)
  then match data !! Z.to_nat j with
       | Some f => Ok f
       | None => Raise (IndexError "index out of bounds")
       end
  else Raise (IndexError "index out of bounds").

Fixpoint take_frames (data : list frame) (ti : list Z) : result (list frame) :=
  match ti with
  | [] => Ok []
  | i :: ti' =>
      f ← take_frame data i;
      fs ← take_frames data ti';
      Ok (f :: fs)
  end.

Definition data_handler (data : list frame) (t_0 t_end : Z)
    (variables : list string) : result (list frame) :=
  let ti := if t_0 =? t_end then np_arange t_0 (t_0 + 1)
            else np_arange t_0 t_end in
  take_frames data ti.

(** *** Fields *)

(** [a + b] on two fields of the same shape, which all frames of one data
    set have. *)
Definition field_add (a b : frame) : frame := zip_with Qcplus a b.

(** [np.sum(x_data, axis=0)] for frames of [len] samples. *)
Definition np_sum_axis0 (len : nat) (x_data : list frame) : frame :=
  fold_left field_add x_data (repeat 0%Qc len).

Definition field_div (a : frame) (d : Qc) : frame :=
  map (fun x => (x / d)%Qc) a.

(** *** The steps of [parse_parameters], in source order *)

(** Window size and window type. The default length is
    [2**floor(log2(nt/10))]: [log2] of zero is [-inf] and the power is [0.0];
    of a negative number it is [nan], on which [np.arange] raises. *)
Definition resolve_window (self : spod_self) (window : window_param)
    : result (Qc * window_val * string) :=
  match window with
  | WStr s =>
      if bool_decide (lower s = "default") then
        if nt self <? 0 then Raise (ValueError "arange: cannot compute length")
        else
          let n_DFT := if nt self =? 0 then 0%Qc
                       else pow2 (floor_log2 (Qc_of_Z (nt self) / Qc_of_Z 10)%Qc) in
          Ok (n_DFT, Hamming n_DFT, "hamming")
      else Raise (ValueError (s +:+ " not recognized."))
  | WInt n => Ok (Qc_of_Z n, Hamming (Qc_of_Z n), "hamming")
  | WArr [x] => Ok (x, Hamming x, "hamming")
  | WArr a =>
      let size := Z.of_nat (length a) in
      if size =? 2 ^ _nextpow2 size
      then Ok (Qc_of_Z size, Coeffs a, "user_specified")
      else Ok (Qc_of_Z size, Coeffs a, "user_specified")
  end.

(** Inner product weights. *)
Definition resolve_weights (self : spod_self) (weights : option ndarray)
    : result (ndarray * string) :=
  match weights with
  | Some w =>
      if negb (np_size w =? nx self * nv self) then
        Raise (ValueError
          "parameter ``weights`` must have the same spatial dimensions as data.")
      else
        let w' := if negb (bool_decide (shape w = [nx self; nv self]))
                  then np_reshape w [nx self * nv self; 1]
                  else w in
        Ok (w', "user-specified")
  | None =>
      if nx self * nv self <? 0
      then Raise (ValueError "negative dimensions are not allowed")
      else Ok (np_ones_col (nx self * nv self), "uniform")
  end.

(** Block overlap. *)
Definition resolve_overlap (n_DFT : Qc) (n_overlap : overlap_param)
    : result Qc :=
  match n_overlap with
  | OStr s =>
      if bool_decide (lower s = "default")
      then Ok (Qc_of_Z (Qcfloor (n_DFT / 2)%Qc))
      else Raise (ValueError (s +:+ " not recognized."))
  | ONum q =>
      if bool_decide (n_DFT - 1 < q)%Qc
      then Raise (ValueError "Overlap is too large")
      else Ok q
  end.

(** Number of blocks: [np.floor((nt - n_overlap) / (n_DFT - n_overlap))]. *)
Definition block_count (nt : Z) (n_DFT n_overlap : Qc) : Z :=
  Qcfloor ((Qc_of_Z nt - n_overlap) / (n_DFT - n_overlap))%Qc.

(** The [for iBlk in range(0, n_blocks)] loop of the long-time mean. *)
Fixpoint longtime_loop (self : spod_self) (split_block : Z) (len : nat)
    (iBlks : list Z) (x_sum : frame) : result frame :=
  match iBlks with
  | [] => Ok x_sum
  | iBlk :: rest =>
      let lb := iBlk * split_block in
      let ub := lb + split_block in
      x_data ← _data_handler self (_data self) lb ub (variables self);
      longtime_loop self split_block len rest
        (field_add x_sum (np_sum_axis0 len x_data))
  end.

Definition longtime_mean (self : spod_self) (n_blocks : Z) : result ndarray :=
  let split_block := nt self / n_blocks in
  let split_res := nt self mod n_blocks in
  let len := Z.to_nat (nx self * nv self) in
  let x_sum := repeat 0%Qc len in
  x_sum ← longtime_loop self split_block len (py_range n_blocks) x_sum;
  x_data ← _data_handler self (_data self) (nt self - split_res) (nt self)
             (variables self);
  let x_sum := field_add x_sum (np_sum_axis0 len x_data) in
  let x_mean := field_div x_sum (Qc_of_Z (nt self)) in
  Ok {| shape := [nx self * nv self]; elems := x_mean |}.

Definition no_mean_warning : string :=
  "No mean subtracted. Consider providing longtime mean.".

(** Type of mean; the third component is the list of warnings issued. *)
Definition resolve_mean (self : spod_self) (n_blocks : Z)
    (mean_type : mean_param) : result (mean_val * string * list string) :=
  match mean_type with
  | MStr s =>
      if bool_decide (lower s = "longtime") then
        x_mean ← longtime_mean self n_blocks;
        Ok (MeanArr x_mean, "longtime", [])
      else if bool_decide (lower s = "blockwise") then
        Ok (MeanScalar 0, "blockwise", [])
      else if bool_decide (lower s = "0") then
        Ok (MeanScalar 0, "zero", [no_mean_warning])
      else Raise (ValueError (s +:+ " not recognized."))
  | MArr a => Ok (MeanArr a, "user-specified", [])
  | MOther ty =>
      Raise (ValueError (ty +:+ " data type not recognized. "
        +:+ "parameter ``mean`` can either be a str or a numpy.ndarray"))
  end.

(** [l[k:] = l[k:] - c] *)
Definition sub_from (k : Z) (c : Qc) (l : list Qc) : list Qc :=
  take (Z.to_nat k) l ++ map (fun x => (x - c)%Qc) (drop (Z.to_nat k) l).

(** Frequency axis, for a time step [dt <> 0]. With true division in force,
    [(n_DFT+1)/2+1] is a float, and a float is not accepted as a slice
    bound. *)
Definition freq_axis (isrealx : bool) (n_DFT : Z) (dt : Qc)
    : result (list Qc) :=
  let freq :=
    map (fun k => (Qc_of_Z k / dt / Qc_of_Z n_DFT)%Qc) (py_range n_DFT) in
  if isrealx then
    Ok (map (fun k => (Qc_of_Z k / Qc_of_Z n_DFT / dt)%Qc)
          (py_range (Qcceiling (Qc_of_Z n_DFT / 2)%Qc + 1)))
  else if n_DFT mod 2 =? 0 then
    Ok (sub_from (py_int (Qc_of_Z n_DFT / 2)%Qc + 1) (1 / dt)%Qc freq)
  else
    Raise (TypeError
      "slice indices must be integers or None or have an __index__ method").

Definition parse_parameters (self : spod_self) (isrealx : bool)
    (params : params) : result (spectral_config * list string) :=
  '(n_DFT, window, window_name) ← resolve_window self (p_n_FFT params);
  '(weights, weights_name) ← resolve_weights self (p_weights params);
  n_overlap ← resolve_overlap n_DFT (p_n_overlap params);
  let n_blocks := block_count (nt self) n_DFT n_overlap in
  if bool_decide (n_DFT < Qc_of_Z 4)%Qc || (n_blocks <? 2) then
    Raise (ValueError "Spectral estimation parameters not meaningful.")
  else
    let n_DFT := py_int n_DFT in
    let n_overlap := py_int n_overlap in
    '(x_mean, mean_name, warned) ← resolve_mean self n_blocks (p_mean params);
    freq ← freq_axis isrealx n_DFT (p_dt params);
    let n_freq := Z.of_nat (length freq) in
    Ok ({| window := window; weights := weights; n_overlap := n_overlap;
           n_DFT := n_DFT; n_blocks := n_blocks; x_mean := x_mean;
           mean_name := mean_name; freq := freq; n_freq := n_freq;
           window_name := window_name; weights_name := weights_name |},
        warned).

End Resolver.

(** ** The constructor: [SPOD_base.__init__] *)

Module Init.
Import Py Resolver.

(** The data handed to the constructor: the shape of one time frame
    ([data.shape[1:]]) and the frames. *)
Record dataset : Type := mk_dataset {
  d_shape : list Z;
  d_frames : list frame
}.

Definition handler : Type :=
  list frame -> Z -> Z -> list string -> result (list frame).

(** Binary64 constants of the confidence block. *)
Definition prec : Z := 53.
Definition emax : Z := 1024.
Definition f_0_95 : spec_float := S754_finite false 8556839292003942 (-53).
Definition f_1 : spec_float := S754_finite false 4503599627370496 (-52).
Definition f_2 : spec_float := S754_finite false 4503599627370496 (-51).

Record spod_obj : Type := mk_obj {
  _self : spod_self;
  _xshape : list Z;
  _isrealx : bool;
  _params : params;
  _config : spectral_config;
  _conf_interval : bool;
  _conf_level : option spec_float;
  _xi2_upper : option spec_float;
  _xi2_lower : option spec_float;
  _eigs_c_shape : list Z;
  _save_dir_blocks : string
}.

Section Constructor.

(** [scipy.special.gammaincinv], an external routine. *)
Variable gammaincinv : Z -> spec_float -> spec_float.

(** The working directory [CWD] read when the module is imported. *)
Variable CWD : string.

Definition blocks_dir_name (cfg : spectral_config) : string :=
  "nfft" +:+ pretty (n_DFT cfg) +:+ "_novlp" +:+ pretty (n_overlap cfg)
  +:+ "_nblks" +:+ pretty (n_blocks cfg).

Definition __init__ (data : dataset) (params : params)
    (data_handler : option handler) (variables : list string)
    : result (spod_obj * list string) :=
  let nt := p_nt params in
  let xdim := p_xdim params in
  let nv := p_nv params in
  let h := match data_handler with
           | Some h => h
           | None => Resolver.data_handler
           end in
  X ← match data_handler with
      | Some h => h (d_frames data) 0 1 variables
      | None => Resolver.data_handler (d_frames data) 0 0 variables
      end;
  let X_ndim := Z.of_nat (length (d_shape data)) + 1 in
  let X_frame_shape :=
    if (nv =? 1) && negb (X_ndim =? xdim + 2)
    then d_shape data ++ [1] else d_shape data in
  match X, X_frame_shape with
  | [], _ => Raise (IndexError "index 0 is out of bounds for axis 0")
  | _, [] => Raise (IndexError "too many indices for array")
  | _ :: _, _ :: _ =>
      let xshape := removelast X_frame_shape in
      let nx := fold_right Z.mul 1 xshape in
      let isrealx := match p_isreal params with
                     | Some b => b
                     | None => true
                     end in
      let self := {| nt := nt; nx := nx; nv := nv; variables := variables;
                     _data := d_frames data; _data_handler := h |} in
      '(cfg, warned) ← parse_parameters self isrealx params;
      let conf :=
        match p_conf_level params with
        | Some _ =>
            let conf_level := f_0_95 in
            (true, Some conf_level,
             Some (SFmul prec emax f_2
                     (gammaincinv (n_blocks cfg)
                        (SFsub prec emax f_1 conf_level))),
             Some (SFmul prec emax f_2
                     (gammaincinv (n_blocks cfg) conf_level)),
             [n_freq cfg; n_blocks cfg; 2])
        | None => (false, None, None, None, [0])
        end in
      let '(conf_interval, conf_level, xi2_upper, xi2_lower, eigs_c) := conf in
      let save_dir := default CWD (p_savedir params) in
      Ok ({| _self := self; _xshape := xshape; _isrealx := isrealx;
             _params := params; _config := cfg;
             _conf_interval := conf_interval; _conf_level := conf_level;
             _xi2_upper := xi2_upper; _xi2_lower := xi2_lower;
             _eigs_c_shape := eigs_c;
             _save_dir_blocks := path_join save_dir (blocks_dir_name cfg) |},
          warned)
  end.

End Constructor.

End Init.

(** ** Complex arrays *)

Module Complex.

(** A complex number with exact rational parts. *)
Record C : Type := mkC { re : Qc; im : Qc }.

Definition C0 : C := mkC 0 0.
Definition of_real (x : Qc) : C := mkC x 0.
Definition Cadd (a b : C) : C := mkC (re a + re b) (im a + im b).
Definition Cmul (a b : C) : C :=
  mkC (re a * re b - im a * im b) (re a * im b + im a * re b).
Definition Cconj (a : C) : C := mkC (re a) (- im a).

(** [sum(f(k) for k in range(n))] *)
Definition Csum (n : Z) (f : Z -> C) : C :=
  fold_left Cadd (map f (Py.py_range n)) C0.

(** A numpy array of complex entries: shape, and elements in C order. *)
Record cndarray : Type := mk_cndarray { cshape : list Z; celems : list C }.

Definition csize (a : cndarray) : Z := fold_right Z.mul 1 (cshape a).

(** The elements of the two-dimensional array whose entry [(i, j)] is
    [f i j]. *)
Definition tabulate2 (r c : Z) (f : Z -> Z -> C) : list C :=
  flat_map (fun i => map (fun j => f i j) (Py.py_range c)) (Py.py_range r).

Definition mat (r c : Z) (f : Z -> Z -> C) : cndarray :=
  {| cshape := [r; c]; celems := tabulate2 r c f |}.

(** [a[i, j]] for a two-dimensional [a], indices in range. *)
Definition at2 (a : cndarray) (i j : Z) : C :=
  match cshape a with
  | [_; c] => nth (Z.to_nat (i * c + j)) (celems a) C0
  | _ => C0
  end.

(** [a.T] for a two-dimensional [a]. *)
Definition np_T (a : cndarray) : cndarray :=
  match cshape a with
  | [r; c] => mat c r (fun i j => at2 a j i)
  | _ => a
  end.

(** [a.conj().T], the conjugate transpose. *)
Definition np_H (a : cndarray) : cndarray :=
  match cshape a with
  | [r; c] => mat c r (fun i j => Cconj (at2 a j i))
  | _ => a
  end.

(** [a.reshape(-1, m)] *)
Definition reshape_cols (a : cndarray) (m : Z) : Py.result cndarray :=
  if m <=? 0 then Py.Raise (Py.ValueError "cannot reshape array")
  else if negb (csize a mod m =? 0)
  then Py.Raise (Py.ValueError "cannot reshape array")
  else Py.Ok {| cshape := [csize a / m; m]; celems := celems a |}.

(** One axis of a broadcast. *)
Definition broadcast_dim (d1 d2 : Z) : Py.result Z :=
  if d1 =? d2 then Py.Ok d1
  else if d1 =? 1 then Py.Ok d2
  else if d2 =? 1 then Py.Ok d1
  else Py.Raise (Py.ValueError "operands could not be broadcast together").

(** [a * b], elementwise with broadcasting, for two-dimensional operands. *)
Definition np_mul (a b : cndarray) : Py.result cndarray :=
  match cshape a, cshape b with
  | [r1; c1], [r2; c2] =>
      r ← broadcast_dim r1 r2;
      c ← broadcast_dim c1 c2;
      Py.Ok (mat r c (fun i j =>
        Cmul (at2 a (if r1 =? 1 then 0 else i) (if c1 =? 1 then 0 else j))
             (at2 b (if r2 =? 1 then 0 else i) (if c2 =? 1 then 0 else j))))
  | _, _ => Py.Raise (Py.ValueError "operands could not be broadcast together")
  end.

(** [np.matmul(a, b)] for two-dimensional operands. *)
Definition np_matmul (a b : cndarray) : Py.result cndarray :=
  match cshape a, cshape b with
  | [r1; c1], [r2; c2] =>
      if c1 =? r2
      then Py.Ok (mat r1 c2 (fun i j =>
             Csum c1 (fun k => Cmul (at2 a i k) (at2 b k j))))
      else Py.Raise (Py.ValueError "matmul: mismatch in core dimension")
  | _, _ => Py.Raise (Py.ValueError "matmul: mismatch in core dimension")
  end.

(** A real array seen as a complex one. *)
Definition of_real_array (w : Resolver.ndarray) : cndarray :=
  {| cshape := Resolver.shape w;
     celems := map of_real (Resolver.elems w) |}.

End Complex.

(** ** Modal coefficient projector: [SPOD_base.get_coefficients] *)

Module Projector.
Import Py Resolver Init Complex.

(** The artifact directory: path to stored array. *)
Abbreviation store := (gmap string cndarray).

Definition np_load (st : store) (file : string) : result cndarray :=
  match st !! file with
  | Some a => Ok a
  | None => Raise (IOError file)
  end.

Definition np_save (st : store) (file : string) (a : cndarray) : store :=
  <[file := a]> st.

Definition modes_file (dir : string) (n_modes_save iFreq : Z) : string :=
  path_join dir
    ("modes1to" +:+ fmt04d n_modes_save +:+ "_freq" +:+ fmt04d iFreq
     +:+ ".npy").

Definition coeffs_file (dir : string) (n_modes_save iFreq : Z) : string :=
  path_join dir
    ("coeffs1to" +:+ fmt04d n_modes_save +:+ "_freq" +:+ fmt04d iFreq
     +:+ ".npy").

(** [n_modes_save = self._n_blocks], unless the parameters say otherwise. *)
Definition n_modes_save_of (self : spod_obj) : Z :=
  default (n_blocks (_config self)) (p_n_modes_save (_params self)).

Fixpoint drop_leading_ones (sh : list Z) : list Z :=
  match sh with
  | 1 :: sh' => drop_leading_ones sh'
  | _ => sh
  end.

(** The value assigned to a column [Q_hat_f[:, iBlk]] of [nx] entries: an
    array of shape [(nx,)] up to leading axes of length one, or a single
    element, repeated. *)
Definition as_column (nx : Z) (a : cndarray) : result (list C) :=
  let sh := drop_leading_ones (cshape a) in
  if bool_decide (sh = [nx]) then Ok (celems a)
  else if bool_decide (sh = [])
  then Ok (repeat (nth 0 (celems a) C0) (Z.to_nat nx))
  else Raise (ValueError "could not broadcast input array").

(** [Q_hat_f[:, iBlk] = v] *)
Definition set_column (q : cndarray) (iBlk : Z) (v : list C) : cndarray :=
  match cshape q with
  | [r; c] =>
      mat r c (fun i j => if j =? iBlk then nth (Z.to_nat i) v C0
                          else at2 q i j)
  | _ => q
  end.

(** The [for iBlk] loop that loads the FFT blocks of one frequency. *)
Fixpoint load_blocks (st : store) (dir : string) (nx iFreq : Z)
    (iBlks : list Z) (Q_hat_f : cndarray) : result cndarray :=
  match iBlks with
  | [] => Ok Q_hat_f
  | iBlk :: rest =>
      a ← np_load st (Cache.fft_block_file dir iBlk iFreq);
      v ← as_column nx a;
      load_blocks st dir nx iFreq rest (set_column Q_hat_f iBlk v)
  end.

(** The inner product of the source: [np.matmul(Psi.T, Q_hat_f * w).T]. *)
Definition inner_product (Psi Q_hat_f w : cndarray) : result cndarray :=
  qw ← np_mul Q_hat_f w;
  p ← np_matmul (np_T Psi) qw;
  Ok (np_T p).

(** The body of the [for iFreq] loop. *)
Definition project_frequency (self : spod_obj) (st : store) (iFreq : Z)
    : result store :=
  let nx := nx (_self self) in
  let n_blocks := n_blocks (_config self) in
  let dir := _save_dir_blocks self in
  let n_modes_save := n_modes_save_of self in
  if (nx <? 0) || (n_blocks <? 0)
  then Raise (ValueError "negative dimensions are not allowed")
  else
    Q_hat_f ← load_blocks st dir nx iFreq (py_range n_blocks)
                 (mat nx n_blocks (fun _ _ => C0));
    Psi ← np_load st (modes_file dir n_modes_save iFreq);
    Psi ← reshape_cols Psi n_modes_save;
    a_k ← inner_product Psi Q_hat_f (of_real_array (weights (_config self)));
    Ok (np_save st (coeffs_file dir n_modes_save iFreq) a_k).

Fixpoint project_loop (self : spod_obj) (iFreqs : list Z) (st : store)
    : result store :=
  match iFreqs with
  | [] => Ok st
  | iFreq :: rest =>
      st' ← project_frequency self st iFreq;
      project_loop self rest st'
  end.

Definition get_coefficients (self : spod_obj) (st : store) : result store :=
  project_loop self (py_range (n_freq (_config self))) st.

(** What a reader finds under the coefficient name of [iFreq] once
    [get_coefficients] has run. *)
Definition saved_coefficients (self : spod_obj) (st : store) (iFreq : Z)
    : result cndarray :=
  st' ← get_coefficients self st;
  np_load st' (coeffs_file (_save_dir_blocks self) (n_modes_save_of self)
                 iFreq).

(** The projection as the specification words it:
    [(Psi^H . (Q_hat_f * weights))^T]. *)
Definition inner_product_spec (Psi Q_hat_f w : cndarray) : result cndarray :=
  qw ← np_mul Q_hat_f w;
  p ← np_matmul (np_H Psi) qw;
  Ok (np_T p).

(** The shape of what one iteration of the frequency loop stores, and the
    loop invariant built on it. *)
Definition coefficient_matrix (self : spod_obj) (a : cndarray) : Prop :=
  cshape a = [n_blocks (_config self); n_modes_save_of self]
  /\ length (celems a)
     = (Z.to_nat (n_blocks (_config self))
        * Z.to_nat (n_modes_save_of self))%nat.

Definition saved_at (self : spod_obj) (st : store) (iFreq : Z) : Prop :=
  exists a,
    st !! coeffs_file (_save_dir_blocks self) (n_modes_save_of self) iFreq
    = Some a
    /\ coefficient_matrix self a.

End Projector.

(** ** Emulator data preparer: [SPOD_base.build_emulator] *)

Module Emulator.
Import Py Resolver Init Complex Projector.

(** The binary64 literal [0.7]. *)
Definition f_0_7 : spec_float := S754_finite false 6305039478318694 (-53).

(** Conversion of a Python [int] that takes part in float arithmetic. *)
Definition float_of_int (n : Z) : spec_float :=
  binary_normalize prec emax n 0 false.

(** [int(x)] on a float. *)
Definition int_of_float (x : spec_float) : result Z :=
  match x with
  | S754_zero _ => Ok 0
  | S754_finite s m e =>
      let v := if 0 <=? e then Z.pos m * 2 ^ e else Z.pos m / 2 ^ (- e) in
      Ok (if s then - v else v)
  | S754_infinity _ =>
      Raise (OverflowError "cannot convert float infinity to integer")
  | S754_nan => Raise (ValueError "cannot convert float NaN to integer")
  end.

(** [int(0.7*self._n_blocks)] *)
Definition num_train_blocks (n_blocks : Z) : result Z :=
  int_of_float (SFmul prec emax f_0_7 (float_of_int n_blocks)).

(** The position a slice bound [k] denotes in a list of [len] items. *)
Definition slice_bound (k : Z) (len : nat) : nat :=
  Z.to_nat (if k <? 0 then Z.max (k + Z.of_nat len) 0
            else Z.min k (Z.of_nat len)).

(** [l[:k]] and [l[k:]] *)
Definition slice_to {A : Type} (k : Z) (l : list A) : list A :=
  take (slice_bound k (length l)) l.
Definition slice_from {A : Type} (k : Z) (l : list A) : list A :=
  drop (slice_bound k (length l)) l.

(** The [for iFreq] loop that loads the coefficients. *)
Fixpoint load_coefficients (st : store) (dir : string) (n_modes_save : Z)
    (iFreqs : list Z) (coeff_list : list cndarray)
    : result (list cndarray) :=
  match iFreqs with
  | [] => Ok coeff_list
  | iFreq :: rest =>
      a_k ← np_load st (coeffs_file dir n_modes_save iFreq);
      load_coefficients st dir n_modes_save rest (coeff_list ++ [a_k])
  end.

(** [np.moveaxis(np.asarray(coeff_list), 0, 1)], as the list of its blocks
    along the new first axis: block [s] stacks, over the frequencies, the
    sub-array [a_k[s]]. *)
Definition moveaxis_0_1 (coeff_list : list cndarray)
    : result (list cndarray) :=
  match coeff_list with
  | [] => Raise (ValueError "destination: axis 1 is out of bounds")
  | a0 :: _ =>
      if forallb (fun a => bool_decide (cshape a = cshape a0)) coeff_list
      then match cshape a0 with
           | [] => Raise (ValueError "destination: axis 1 is out of bounds")
           | A :: sh =>
               let B := Z.to_nat (fold_right Z.mul 1 sh) in
               Ok (map (fun s =>
                     {| cshape := Z.of_nat (length coeff_list) :: sh;
                        celems :=
                          flat_map (fun a =>
                            take B (drop (Z.to_nat s * B) (celems a)))
                            coeff_list |})
                     (py_range A))
           end
      else Raise (ValueError "inhomogeneous shape")
  end.

(** [emulator_prep_data[i]] *)
Definition index_block (tensor : list cndarray) (i : Z) : result cndarray :=
  let n := Z.of_nat (length tensor) in
  let j := if i <? 0 then i + n else i in
  if (0 <=? j) && (j <? n)
  then match tensor !! Z.to_nat j with
       | Some b => Ok b
       | None => Raise (IndexError "index out of bounds")
       end
  else Raise (IndexError "index out of bounds").

(** The [for sample] loop. *)
Fixpoint pair_loop (tensor : list cndarray) (samples : list Z)
    (input_block output_block : list cndarray)
    : result (list cndarray * list cndarray) :=
  match samples with
  | [] => Ok (input_block, output_block)
  | sample :: rest =>
      x ← index_block tensor sample;
      y ← index_block tensor (sample + 1);
      pair_loop tensor rest (input_block ++ [x]) (output_block ++ [y])
  end.

Record emulator_data : Type := mk_emulator_data {
  training_data_ip : list cndarray;
  training_data_op : list cndarray;
  testing_data_ip : list cndarray;
  testing_data_op : list cndarray
}.

(** The tensor [emulator_prep_data]. *)
Definition emulator_prep_data (self : spod_obj) (st : store)
    : result (list cndarray) :=
  coeff_list ← load_coefficients st (_save_dir_blocks self)
                  (n_modes_save_of self)
                  (py_range (n_freq (_config self))) [];
  moveaxis_0_1 coeff_list.

(** [build_emulator], up to the call that sets up the external model. *)
Definition build_emulator (self : spod_obj) (st : store)
    : result emulator_data :=
  tensor ← emulator_prep_data self st;
  '(input_block, output_block) ←
     pair_loop tensor (py_range (n_blocks (_config self) - 1)) [] [];
  num_train ← num_train_blocks (n_blocks (_config self));
  Ok {| training_data_ip := slice_to num_train input_block;
        training_data_op := slice_to num_train output_block;
        testing_data_ip := slice_from num_train input_block;
        testing_data_op := slice_from num_train output_block |}.

End Emulator.

(** ** Concrete runs used as examples *)

Module Fixtures.
Import Py Resolver.

(** [n] frames of [len] samples, all equal to [c]. *)
Definition constant_data (c : Qc) (len n : nat) : list frame :=
  repeat (repeat c len) n.

(** An object over in-memory data, with the handler of [__init__]. *)
Definition self_in_memory (nt nx nv : Z) (data : list frame) : spod_self :=
  {| nt := nt; nx := nx; nv := nv; variables := ["u"];
     _data := data; _data_handler := data_handler |}.

Definition params_of (nt nv : Z) (n_FFT : window_param)
    (n_overlap : overlap_param) (mean : mean_param)
    (weights : option ndarray) (isreal : option bool) : params :=
  {| p_nt := nt; p_xdim := 1; p_nv := nv; p_savedir := Some "results";
     p_n_FFT := n_FFT; p_weights := weights; p_n_overlap := n_overlap;
     p_dt := 1%Qc; p_mean := mean; p_isreal := isreal;
     p_conf_level := None; p_n_modes_save := None |}.

(** 20 snapshots of one real sample, blocks of 8 with default overlap. *)
Definition self_20 : spod_self :=
  self_in_memory 20 1 1 (constant_data 1%Qc 1 20).

Definition params_blockwise : params :=
  params_of 20 1 (WInt 8) (OStr "default") (MStr "blockwise") None None.

(** The same, two-sided, with an odd window length of 5 and no overlap. *)
Definition params_odd_complex : params :=
  params_of 20 1 (WInt 5) (ONum 0%Qc) (MStr "blockwise") None (Some false).

(** 8 snapshots equal to 1, blocks of 4, no overlap: two blocks, and
    [nt] divisible by [n_blocks]. *)
Definition self_8 : spod_self :=
  self_in_memory 8 1 1 (constant_data 1%Qc 1 8).

Definition params_longtime : params :=
  params_of 8 1 (WInt 4) (ONum 0%Qc) (MStr "longtime") None None.

(** 9 snapshots: the remainder chunk is not empty. *)
Definition self_9 : spod_self :=
  self_in_memory 9 1 1 (constant_data 1%Qc 1 9).

Definition params_longtime_9 : params :=
  params_of 9 1 (WInt 4) (ONum 0%Qc) (MStr "longtime") None None.

Definition params_mean_zero_word : params :=
  params_of 20 1 (WInt 8) (OStr "default") (MStr "zero") None None.

Definition params_mean_zero_digit : params :=
  params_of 20 1 (WInt 8) (OStr "default") (MStr "0") None None.

(** Two spatial points, two variables, weights already of shape [(2, 2)]. *)
Definition self_2x2 : spod_self :=
  self_in_memory 20 2 2 (constant_data 1%Qc 4 20).

Definition weights_2x2 : ndarray :=
  {| shape := [2; 2]; elems := [1%Qc; 1%Qc; 1%Qc; 1%Qc] |}.

Definition weights_flat4 : ndarray :=
  {| shape := [4]; elems := [1%Qc; 1%Qc; 1%Qc; 1%Qc] |}.

Definition weights_flat3 : ndarray :=
  {| shape := [3]; elems := [1%Qc; 1%Qc; 1%Qc] |}.

Definition params_weights (w : option ndarray) : params :=
  params_of 20 2 (WInt 8) (OStr "default") (MStr "blockwise") w None.

(** The constructor's view of [self_20]: 20 frames of shape [(1,)]. *)
Definition dataset_20 : Init.dataset :=
  {| Init.d_shape := [1]; Init.d_frames := constant_data 1%Qc 1 20 |}.

(** A run over 8 real snapshots of one point: blocks of 4 without overlap,
    block-wise mean, one mode kept. *)
Definition params_8 : params :=
  {| p_nt := 8; p_xdim := 1; p_nv := 1; p_savedir := Some "results";
     p_n_FFT := WInt 4; p_weights := None; p_n_overlap := ONum 0%Qc;
     p_dt := 1%Qc; p_mean := MStr "blockwise"; p_isreal := None;
     p_conf_level := None; p_n_modes_save := Some 1 |}.

Definition dataset_8 : Init.dataset :=
  {| Init.d_shape := [1]; Init.d_frames := constant_data 1%Qc 1 8 |}.

(** The object [__init__] builds for it: 2 blocks, 3 frequencies. *)
Definition obj_8 : Init.spod_obj :=
  {| Init._self := self_8; Init._xshape := [1]; Init._isrealx := true;
     Init._params := params_8;
     Init._config :=
       {| window := Hamming (Qc_of_Z 4); weights := np_ones_col 1;
          n_overlap := 0; n_DFT := 4; n_blocks := 2;
          x_mean := MeanScalar 0; mean_name := "blockwise";
          freq := [Q2Qc 0; Q2Qc (1 # 4); Q2Qc (1 # 2)]; n_freq := 3;
          window_name := "hamming"; weights_name := "uniform" |};
     Init._conf_interval := false; Init._conf_level := None;
     Init._xi2_upper := None; Init._xi2_lower := None;
     Init._eigs_c_shape := [0];
     Init._save_dir_blocks := "results/nfft4_novlp0_nblks2" |}.

Definition Ci : Complex.C := Complex.mkC 0 1.
Definition C1 : Complex.C := Complex.mkC 1 0.

(** Its artifact directory: at every frequency the FFT blocks [[1]] and
    [[i]], and the single mode [[[i]]]. *)
Definition store_8 : gmap string Complex.cndarray :=
  list_to_map (flat_map (fun iFreq =>
    [ (Cache.fft_block_file "results/nfft4_novlp0_nblks2" 0 iFreq,
       {| Complex.cshape := [1]; Complex.celems := [C1] |});
      (Cache.fft_block_file "results/nfft4_novlp0_nblks2" 1 iFreq,
       {| Complex.cshape := [1]; Complex.celems := [Ci] |});
      (Projector.modes_file "results/nfft4_novlp0_nblks2" 1 iFreq,
       {| Complex.cshape := [1; 1]; Complex.celems := [Ci] |}) ])
    [0; 1; 2]).

(** The matrices of that run at one frequency. *)
Definition Psi_8 : Complex.cndarray :=
  {| Complex.cshape := [1; 1]; Complex.celems := [Ci] |}.
Definition Q_hat_8 : Complex.cndarray :=
  {| Complex.cshape := [1; 2]; Complex.celems := [C1; Ci] |}.

(** A run over 40 snapshots: 10 blocks, 3 frequencies, one mode kept. *)
Definition params_40 : params :=
  {| p_nt := 40; p_xdim := 1; p_nv := 1; p_savedir := Some "results";
     p_n_FFT := WInt 4; p_weights := None; p_n_overlap := ONum 0%Qc;
     p_dt := 1%Qc; p_mean := MStr "blockwise"; p_isreal := None;
     p_conf_level := None; p_n_modes_save := Some 1 |}.

Definition dataset_40 : Init.dataset :=
  {| Init.d_shape := [1]; Init.d_frames := constant_data 1%Qc 1 40 |}.

Definition obj_40 : Init.spod_obj :=
  {| Init._self := self_in_memory 40 1 1 (constant_data 1%Qc 1 40);
     Init._xshape := [1]; Init._isrealx := true;
     Init._params := params_40;
     Init._config :=
       {| window := Hamming (Qc_of_Z 4); weights := np_ones_col 1;
          n_overlap := 0; n_DFT := 4; n_blocks := 10;
          x_mean := MeanScalar 0; mean_name := "blockwise";
          freq := [Q2Qc 0; Q2Qc (1 # 4); Q2Qc (1 # 2)]; n_freq := 3;
          window_name := "hamming"; weights_name := "uniform" |};
     Init._conf_interval := false; Init._conf_level := None;
     Init._xi2_upper := None; Init._xi2_lower := None;
     Init._eigs_c_shape := [0];
     Init._save_dir_blocks := "results/nfft4_novlp0_nblks10" |}.

(** Its coefficient files: at frequency [f] the column of the ten values
    [10*f + b]. *)
Definition store_40 : gmap string Complex.cndarray :=
  list_to_map (map (fun iFreq =>
    (Projector.coeffs_file "results/nfft4_novlp0_nblks10" 1 iFreq,
     {| Complex.cshape := [10; 1];
        Complex.celems :=
          map (fun b => Complex.of_real (Qc_of_Z (10 * iFreq + b)))
            (py_range 10) |}))
    [0; 1; 2]).


(** An artifact directory for 3 blocks and 2 frequencies: all six block
    files, and the same without the file of block 2, frequency 1. *)
Definition six_files : gset string :=
  list_to_set (flat_map (fun iBlk =>
      map (fun iFreq => Cache.fft_block_file "results" iBlk iFreq) [0; 1])
    [0; 1; 2]).

Definition five_files : gset string :=
  six_files ∖ {[ Cache.fft_block_file "results" 2 1 ]}.

End Fixtures.

(** ** Data access: [SPOD_base.get_data] and the handler's error *)

Module Access.
Import Py Resolver Init.

(** The one exception the in-memory handler raises. *)
Definition out_of_bounds : exn := IndexError "index out of bounds".

(** [get_data]: the handler is always set once [__init__] has run, so the
    branch that indexes [self._data] directly is not taken. A frame is kept
    flattened, so the trailing axis added for a single variable does not
    show. *)
Definition get_data (self : spod_obj) (t_0 t_end : Z) : result (list frame) :=
  _data_handler (_self self) (_data (_self self)) t_0 t_end
    (variables (_self self)).

End Access.

(** ** Directories as sequences of writes *)

Module Artifacts.
Import Py Resolver Init Complex Projector.

(** The files a run writes, in order, replayed on a directory. *)
Definition apply_writes (ws : list (string * cndarray)) (st : store) : store :=
  fold_left (fun s ka => <[ka.1 := ka.2]> s) ws st.

(** Two directories hold the same FFT blocks and the same modes. *)
Definition same_inputs (self : spod_obj) (st1 st2 : store) : Prop :=
  (forall iBlk iFreq,
     st1 !! Cache.fft_block_file (_save_dir_blocks self) iBlk iFreq
     = st2 !! Cache.fft_block_file (_save_dir_blocks self) iBlk iFreq)
  /\ (forall iFreq,
        st1 !! modes_file (_save_dir_blocks self) (n_modes_save_of self) iFreq
        = st2 !! modes_file (_save_dir_blocks self) (n_modes_save_of self)
                   iFreq).

(** The prefix that [os.path.join] puts before a relative name. *)
Definition join_prefix (a : string) : string :=
  if bool_decide (a = EmptyString) || ends_with_slash a then a
  else a +:+ "/".

(** [np.eye(n)] with complex entries. *)
Definition np_eye (n : Z) : cndarray :=
  mat n n (fun i j => if i =? j then mkC 1 0 else C0).

End Artifacts.

(** ** Further concrete runs *)

Module Runs.
Import Py Resolver Init Complex Projector.

(** Nine snapshots of one sample with the values 1, 2, ..., 9. *)
Definition ramp_data : list frame :=
  map (fun k => [Qc_of_Z (k + 1)]) (py_range 9).

Definition self_ramp : spod_self :=
  {| nt := 9; nx := 1; nv := 1; variables := ["u"];
     _data := ramp_data; _data_handler := data_handler |}.

(** Eight snapshots, blocks of 4 overlapping by 1. *)
Definition params_overlap_1 : params :=
  Fixtures.params_of 8 1 (WInt 4) (ONum (Qc_of_Z 1)) (MStr "blockwise")
    None None.

(** Twenty snapshots treated as complex data, blocks of 8. *)
Definition params_two_sided : params :=
  Fixtures.params_of 20 1 (WInt 8) (OStr "default") (MStr "blockwise")
    None (Some false).

(** Both defaults, spelled in mixed case. *)
Definition params_defaults : params :=
  Fixtures.params_of 100 1 (WStr "Default") (OStr "DEFAULT")
    (MStr "blockwise") None None.

(** One hundred snapshots of one sample. *)
Definition self_100 : spod_self :=
  Fixtures.self_in_memory 100 1 1 (Fixtures.constant_data 1%Qc 1 100).

End Runs.

(** * Properties *)

Module PyFacts.
Import Py.

(** Settle a decidable proposition on closed terms by evaluation. *)
Ltac by_compute :=
  match goal with
  | |- ~ ?P => apply (proj1 (bool_decide_eq_false P)); vm_compute; reflexivity
  | |- ?P => apply (proj1 (bool_decide_eq_true P)); vm_compute; reflexivity
  end.

Lemma count_loop_from (p : Z -> bool) (l : list Z) (a : Z) :
  fold_left (fun acc i => if p i then acc + 1 else acc) l a
  = a + count_loop p l.
Proof.
  unfold count_loop. revert a.
  induction l as [|x l IH]; intros a; simpl.
  - lia.
  - rewrite IH. rewrite (IH (if p x then 0 + 1 else 0)).
    destruct (p x); lia.
Qed.

Lemma count_loop_cons (p : Z -> bool) (x : Z) (l : list Z) :
  count_loop p (x :: l) = (if p x then 1 else 0) + count_loop p l.
Proof.
  unfold count_loop at 1. simpl. rewrite count_loop_from.
  destruct (p x); lia.
Qed.

Lemma count_loop_bounds (p : Z -> bool) (l : list Z) :
  0 <= count_loop p l <= Z.of_nat (length l).
Proof.
  induction l as [|x l IH].
  - unfold count_loop; simpl; lia.
  - rewrite count_loop_cons. simpl length. destruct (p x); lia.
Qed.

(** The counter reaches the number of iterations exactly when the test
    succeeded at every iteration. *)
Lemma count_loop_full (p : Z -> bool) (l : list Z) :
  count_loop p l = Z.of_nat (length l) <-> (forall i, In i l -> p i = true).
Proof.
  induction l as [|x l IH].
  - unfold count_loop; simpl. split; [intros _ i [] | reflexivity].
  - rewrite count_loop_cons. simpl length.
    pose proof (count_loop_bounds p l) as Hb.
    split.
    + intros Hc i [->|Hi].
      * destruct (p i); [reflexivity | lia].
      * apply IH; [|exact Hi]. destruct (p x); lia.
    + intros Hall.
      rewrite (Hall x (or_introl eq_refl)).
      assert (count_loop p l = Z.of_nat (length l)) as ->.
      { apply IH. intros i Hi. apply Hall. right; exact Hi. }
      lia.
Qed.

Lemma py_range_length (n : Z) :
  0 <= n -> Z.of_nat (length (py_range n)) = n.
Proof.
  intros Hn. unfold py_range. rewrite length_map, length_seq. lia.
Qed.

Lemma py_range_In (n i : Z) : In i (py_range n) <-> 0 <= i < n.
Proof.
  unfold py_range. rewrite in_map_iff. split.
  - intros (k & <- & Hk). apply in_seq in Hk. lia.
  - intros Hi. exists (Z.to_nat i). split; [lia|]. apply in_seq. lia.
Qed.

Lemma count_loop_range_full (p : Z -> bool) (n : Z) :
  0 <= n ->
  (count_loop p (py_range n) =? n) = true <-> (forall i, 0 <= i < n -> p i = true).
Proof.
  intros Hn. rewrite Z.eqb_eq.
  rewrite <- (py_range_length n Hn) at 2.
  rewrite count_loop_full.
  split; intros H i Hi; apply H; apply py_range_In; exact Hi.
Qed.

End PyFacts.

Module CacheFacts.
Import Py Cache PyFacts.

(** C5. The cache probe answers [true] exactly when every one of the
    [n_blocks * n_freq] files [fft_block{iBlk:04d}_freq{iFreq:04d}.npy]
    exists under the storage directory; as soon as one required file is
    missing the answer is [false]. *)
Theorem are_blocks_present_iff_all_files
    (n_blocks n_freq : Z) (saveDir : string) (fs : gset string) :
  2 <= n_blocks -> 1 <= n_freq ->
  (_are_blocks_present n_blocks n_freq saveDir fs = true <->
     (forall iBlk iFreq, 0 <= iBlk < n_blocks -> 0 <= iFreq < n_freq ->
        fft_block_file saveDir iBlk iFreq ∈ fs))
  /\ ((exists iBlk iFreq, 0 <= iBlk < n_blocks /\ 0 <= iFreq < n_freq /\
         fft_block_file saveDir iBlk iFreq ∉ fs) ->
      _are_blocks_present n_blocks n_freq saveDir fs = false).
Proof.
  intros Hb Hf.
  assert (_are_blocks_present n_blocks n_freq saveDir fs = true <->
     (forall iBlk iFreq, 0 <= iBlk < n_blocks -> 0 <= iFreq < n_freq ->
        fft_block_file saveDir iBlk iFreq ∈ fs)) as Hiff.
  { unfold _are_blocks_present.
    rewrite count_loop_range_full by lia.
    split.
    - intros H iBlk iFreq HB HF.
      specialize (H iBlk HB). unfold all_freq_exist in H.
      rewrite count_loop_range_full in H by lia.
      specialize (H iFreq HF). unfold path_exists in H.
      apply bool_decide_eq_true in H. exact H.
    - intros H iBlk HB. unfold all_freq_exist.
      rewrite count_loop_range_full by lia.
      intros iFreq HF. unfold path_exists.
      apply bool_decide_eq_true. apply H; assumption. }
  split; [exact Hiff|].
  intros (iBlk & iFreq & HB & HF & Hmiss).
  destruct (_are_blocks_present n_blocks n_freq saveDir fs) eqn:E;
    [|reflexivity].
  exfalso. apply Hmiss. apply Hiff; [reflexivity| |]; assumption.
Qed.

Lemma are_blocks_present_witness :
  _are_blocks_present 3 2 "results" Fixtures.six_files = true
  /\ _are_blocks_present 3 2 "results" Fixtures.five_files = false.
Proof.
  destruct (are_blocks_present_iff_all_files 3 2 "results" Fixtures.six_files)
    as [Hiff _]; [lia | lia |].
  destruct (are_blocks_present_iff_all_files 3 2 "results" Fixtures.five_files)
    as [_ Hmiss]; [lia | lia |].
  split.
  - apply Hiff. intros iBlk iFreq HB HF.
    assert (iBlk = 0 \/ iBlk = 1 \/ iBlk = 2) as [-> | [-> | ->]] by lia;
      assert (iFreq = 0 \/ iFreq = 1) as [-> | ->] by lia;
      by_compute.
  - apply Hmiss. exists 2, 1. split; [lia|]. split; [lia|].
    by_compute.
Defined.

End CacheFacts.

Module ResolverFacts.
Import Py Resolver PyFacts.

Lemma bind_Ok {A B : Type} (r : result A) (k : A -> result B) (b : B) :
  r ≫= k = Ok b -> exists a, r = Ok a /\ k a = Ok b.
Proof.
  destruct r as [a|e]; simpl; intros H.
  - exists a. split; [reflexivity | exact H].
  - discriminate H.
Qed.

Lemma bind_Raise {A B : Type} (r : result A) (k : A -> result B) (e : exn) :
  r = Raise e -> r ≫= k = Raise e.
Proof. intros ->. reflexivity. Qed.

(** *** Floors *)

Lemma this_Qc_of_Z (z : Z) : this (Qc_of_Z z) = inject_Z z.
Proof. reflexivity. Qed.

Lemma Qcfloor_of_Z (z : Z) : Qcfloor (Qc_of_Z z) = z.
Proof. unfold Qcfloor. rewrite this_Qc_of_Z. apply Qfloor_Z. Qed.

Lemma Qcceiling_of_Z (z : Z) : Qcceiling (Qc_of_Z z) = z.
Proof. unfold Qcceiling. rewrite this_Qc_of_Z. apply Qceiling_Z. Qed.

Lemma Qcfloor_mono (a b : Qc) : (a <= b)%Qc -> Qcfloor a <= Qcfloor b.
Proof. intros H. unfold Qcfloor. apply Qfloor_resp_le. exact H. Qed.

Lemma py_int_of_Z (z : Z) : py_int (Qc_of_Z z) = z.
Proof.
  unfold py_int. destruct (bool_decide _).
  - apply Qcceiling_of_Z.
  - apply Qcfloor_of_Z.
Qed.

Lemma py_int_nonneg (q : Qc) : (0 <= q)%Qc -> py_int q = Qcfloor q.
Proof.
  intros H. unfold py_int.
  rewrite bool_decide_eq_false_2; [reflexivity|].
  apply Qcle_not_lt. exact H.
Qed.

(** On integers the block count is the floor division of Python. *)
Lemma block_count_integral (nt d o : Z) :
  block_count nt (Qc_of_Z d) (Qc_of_Z o) = (nt - o) / (d - o).
Proof.
  unfold block_count, Qcfloor.
  rewrite <- !Z2Qc_inj_sub.
  rewrite Zdiv_Qdiv.
  apply Qfloor_comp.
  unfold Qcdiv, Qcmult, Qcinv. simpl this.
  rewrite !Qred_correct. reflexivity.
Qed.

(** *** [_nextpow2]: the bound on the loop is never the reason it stops *)

Lemma nextpow2_loop_spec (fuel : nat) (a p : Z) :
  1 <= p -> Z.abs a <= 2 ^ (p - 1 + Z.of_nat fuel) ->
  let r := nextpow2_loop fuel a (2 ^ (p - 1)) p in
  p <= r /\ Z.abs a <= 2 ^ (r - 1) /\ (p < r -> 2 ^ (r - 2) < Z.abs a).
Proof.
  revert p. induction fuel as [|fuel IH]; intros p Hp Hbound; simpl.
  - rewrite Z.add_0_r in Hbound. repeat split; [lia | exact Hbound | lia].
  - destruct (Z.ltb_spec (2 ^ (p - 1)) (Z.abs a)) as [Hlt|Hge].
    + replace (2 ^ p) with (2 ^ (p + 1 - 1)) by (f_equal; lia).
      destruct (IH (p + 1)) as (Hr1 & Hr2 & Hr3).
      * lia.
      * replace (p + 1 - 1 + Z.of_nat fuel)
          with (p - 1 + Z.of_nat (S fuel)) by lia.
        exact Hbound.
      * split; [lia|]. split; [exact Hr2|]. intros _.
        destruct (Z.eq_dec (nextpow2_loop fuel a (2 ^ (p + 1 - 1)) (p + 1))
                    (p + 1)) as [E|NE].
        -- rewrite E. replace (p + 1 - 2) with (p - 1) by lia. exact Hlt.
        -- apply Hr3. lia.
    + repeat split; [lia | exact Hge | lia].
Qed.

(** [_nextpow2(0) = 0]; otherwise the result is the least [p >= 1] with
    [abs(a) <= 2**(p-1)]. *)
Lemma nextpow2_spec (a : Z) :
  a <> 0 ->
  1 <= _nextpow2 a /\ Z.abs a <= 2 ^ (_nextpow2 a - 1)
  /\ (1 < _nextpow2 a -> 2 ^ (_nextpow2 a - 2) < Z.abs a).
Proof.
  intros Ha. unfold _nextpow2.
  replace (Z.to_nat (Z.abs a) + 2)%nat with (S (S (Z.to_nat (Z.abs a))))
    by lia.
  set (fuel := S (Z.to_nat (Z.abs a))).
  change (nextpow2_loop (S fuel) a 0 0)
    with (if 0 <? Z.abs a then nextpow2_loop fuel a (2 ^ 0) (0 + 1) else 0).
  destruct (Z.ltb_spec 0 (Z.abs a)) as [_|H0]; [|lia].
  change (2 ^ 0) with (2 ^ (1 - 1)). change (0 + 1) with 1.
  apply nextpow2_loop_spec; [lia|].
  replace (1 - 1 + Z.of_nat fuel) with (Z.succ (Z.abs a)) by lia.
  pose proof (Z.pow_gt_lin_r 2 (Z.succ (Z.abs a))) as Hpow. lia.
Qed.

(** *** Block count and feasibility *)

Lemma resolve_window_error (self : spod_self) (w : window_param) :
  forall e, resolve_window self w = Raise e -> exists msg, e = ValueError msg.
Proof.
  intros e. unfold resolve_window.
  destruct w as [s|n|a].
  - destruct (bool_decide _); [destruct (nt self <? 0)|];
      intros H; inversion H; eauto.
  - discriminate.
  - destruct a as [|x [|y a]]; try discriminate;
      destruct (_ =? _); discriminate.
Qed.

Lemma resolve_weights_error (self : spod_self) (w : option ndarray) :
  forall e, resolve_weights self w = Raise e -> exists msg, e = ValueError msg.
Proof.
  intros e. unfold resolve_weights.
  destruct w as [w|].
  - destruct (negb _); intros H; inversion H; eauto.
  - destruct (_ <? _); intros H; inversion H; eauto.
Qed.

Lemma resolve_overlap_error (n_DFT : Qc) (o : overlap_param) :
  forall e, resolve_overlap n_DFT o = Raise e -> exists msg, e = ValueError msg.
Proof.
  intros e. unfold resolve_overlap.
  destruct o as [s|q]; destruct (bool_decide _);
    intros H; inversion H; eauto.
Qed.

(** C2. Whenever the resolver returns, the block count it returns is
    [floor((nt - n_overlap)/(n_DFT - n_overlap))], it is at least 2 and the
    window length is at least 4; on integral window length and overlap the
    floor is Python's floor division of the returned values. Whenever the
    window length is below 4 or the computed block count is below 2 the
    resolver raises [ValueError]. *)
Theorem parse_parameters_block_count
    (self : spod_self) (isrealx : bool) (params : params) :
  (forall cfg warned,
     parse_parameters self isrealx params = Ok (cfg, warned) ->
     2 <= n_blocks cfg /\ 4 <= n_DFT cfg /\
     exists nd wv wn ov,
       resolve_window self (p_n_FFT params) = Ok (nd, wv, wn) /\
       resolve_overlap nd (p_n_overlap params) = Ok ov /\
       n_DFT cfg = py_int nd /\ n_overlap cfg = py_int ov /\
       n_blocks cfg = Qcfloor ((Qc_of_Z (nt self) - ov) / (nd - ov))%Qc /\
       (nd = Qc_of_Z (n_DFT cfg) -> ov = Qc_of_Z (n_overlap cfg) ->
        n_blocks cfg
        = (nt self - n_overlap cfg) / (n_DFT cfg - n_overlap cfg)))
  /\
  (forall nd wv wn,
     resolve_window self (p_n_FFT params) = Ok (nd, wv, wn) ->
     ((nd < Qc_of_Z 4)%Qc \/
      exists ov, resolve_overlap nd (p_n_overlap params) = Ok ov /\
                 block_count (nt self) nd ov < 2) ->
     is_ValueError (parse_parameters self isrealx params)).
Proof.
  split.
  - intros cfg warned H. unfold parse_parameters in H.
    apply bind_Ok in H as ([[nd wv] wn] & Hw & H).
    apply bind_Ok in H as ([wts wtn] & Hwt & H).
    apply bind_Ok in H as (ov & Hov & H).
    destruct (bool_decide (nd < Qc_of_Z 4)%Qc || _) eqn:Hchk;
      [discriminate H|].
    apply orb_false_elim in Hchk as [Hnd Hnb].
    apply bool_decide_eq_false in Hnd. apply Qcnot_lt_le in Hnd.
    apply Z.ltb_ge in Hnb.
    apply bind_Ok in H as ([[xm mn] wl] & Hm & H).
    apply bind_Ok in H as (fr & Hfr & H).
    inversion H; subst cfg warned; clear H. simpl.
    assert (0 <= nd)%Qc as Hnd0.
    { eapply Qcle_trans; [|exact Hnd]. discriminate. }
    split; [exact Hnb|]. split.
    + rewrite (py_int_nonneg nd Hnd0).
      rewrite <- (Qcfloor_of_Z 4). apply Qcfloor_mono. exact Hnd.
    + exists nd, wv, wn, ov.
      repeat split; try assumption; try reflexivity.
      intros Hdi Hoi.
      rewrite Hdi at 1. rewrite Hoi at 1.
      rewrite block_count_integral.
      rewrite Hdi, Hoi at 1. rewrite !py_int_of_Z. reflexivity.
  - intros nd wv wn Hw Hbad. unfold parse_parameters. rewrite Hw. simpl.
    destruct (resolve_weights self (p_weights params)) as [[wts wtn]|e] eqn:Hwt.
    2:{ apply resolve_weights_error in Hwt as [msg ->]. exact I. }
    simpl.
    destruct (resolve_overlap nd (p_n_overlap params)) as [ov|e] eqn:Hov.
    2:{ apply resolve_overlap_error in Hov as [msg ->]. exact I. }
    simpl.
    assert (bool_decide (nd < Qc_of_Z 4)%Qc
            || (block_count (nt self) nd ov <? 2) = true) as ->; [|exact I].
    destruct Hbad as [Hlt | (ov' & Hov' & Hlt)].
    + rewrite (bool_decide_eq_true_2 _ Hlt). reflexivity.
    + inversion Hov'; subst ov'.
      apply Z.ltb_lt in Hlt. rewrite Hlt. apply orb_true_r.
Qed.


(** *** Frequency axis *)

Lemma lookup_map {A B : Type} (f : A -> B) (l : list A) (i : nat) :
  map f l !! i = f <$> (l !! i).
Proof.
  revert i. induction l as [|x l IH]; intros [|i]; simpl; try reflexivity.
  apply IH.
Qed.

Lemma lookup_py_range (n k : Z) :
  0 <= k < n -> py_range n !! Z.to_nat k = Some k.
Proof.
  intros Hk. unfold py_range. rewrite lookup_map.
  rewrite lookup_seq_lt by lia. simpl. f_equal. lia.
Qed.

Lemma lookup_py_range_nat (n : Z) (i : nat) :
  (i < Z.to_nat n)%nat -> py_range n !! i = Some (Z.of_nat i).
Proof.
  intros Hi. unfold py_range. rewrite lookup_map.
  rewrite lookup_seq_lt by lia. reflexivity.
Qed.

Lemma lookup_py_range_ge (n : Z) (i : nat) :
  (Z.to_nat n <= i)%nat -> py_range n !! i = None.
Proof.
  intros Hi. unfold py_range. rewrite lookup_map.
  rewrite lookup_seq_ge by lia. reflexivity.
Qed.

Lemma this_Qcdiv_Z (a b : Z) :
  this (Qc_of_Z a / Qc_of_Z b)%Qc == inject_Z a / inject_Z b.
Proof.
  unfold Qcdiv, Qcmult, Qcinv. simpl this.
  rewrite !Qred_correct. reflexivity.
Qed.

Lemma Qcfloor_div_Z (a b : Z) : Qcfloor (Qc_of_Z a / Qc_of_Z b)%Qc = a / b.
Proof.
  unfold Qcfloor. rewrite Zdiv_Qdiv. apply Qfloor_comp. apply this_Qcdiv_Z.
Qed.

Lemma Qcceiling_div_Z (a b : Z) :
  Qcceiling (Qc_of_Z a / Qc_of_Z b)%Qc = - ((- a) / b).
Proof.
  unfold Qcceiling, Qceiling. f_equal.
  rewrite Zdiv_Qdiv. apply Qfloor_comp.
  rewrite this_Qcdiv_Z. rewrite inject_Z_opp.
  unfold Qdiv. ring.
Qed.

(** [np.ceil(n/2)] on an integer. *)
Lemma Qcceiling_half (n : Z) : Qcceiling (Qc_of_Z n / 2)%Qc = (n + 1) / 2.
Proof.
  rewrite <- Z2Qc_inj_2. rewrite Qcceiling_div_Z.
  Z.div_mod_to_equations. lia.
Qed.

(** [int(n/2)] on an even integer. *)
Lemma py_int_half_even (n : Z) :
  n mod 2 = 0 -> py_int (Qc_of_Z n / 2)%Qc = n / 2.
Proof.
  intros Hev. unfold py_int. destruct (bool_decide _).
  - rewrite Qcceiling_half. Z.div_mod_to_equations. lia.
  - rewrite <- Z2Qc_inj_2. apply Qcfloor_div_Z.
Qed.

Lemma Qcdiv_div (x y z : Qc) : (x / y / z = x / (y * z))%Qc.
Proof.
  unfold Qcdiv. rewrite Qcinv_mult_distr. ring.
Qed.

Lemma Qcdiv_div_swap (x y z : Qc) : (x / y / z = x / (z * y))%Qc.
Proof.
  unfold Qcdiv. rewrite Qcinv_mult_distr. ring.
Qed.

(** One-sided axis: [freq[k] = k/(n_DFT*dt)] for [k] in [[0, ceil(n_DFT/2)]]. *)
Lemma freq_axis_one_sided (n_DFT : Z) (dt : Qc) :
  freq_axis true n_DFT dt
  = Ok (map (fun k => (Qc_of_Z k / (Qc_of_Z n_DFT * dt))%Qc)
          (py_range ((n_DFT + 1) / 2 + 1))).
Proof.
  unfold freq_axis. rewrite Qcceiling_half. f_equal.
  apply map_ext. intros k. apply Qcdiv_div.
Qed.

Lemma sub_from_map_range (f : Z -> Qc) (c : Qc) (k n : Z) :
  0 <= k ->
  sub_from k c (map f (py_range n))
  = map (fun i => if i <? k then f i else (f i - c)%Qc) (py_range n).
Proof.
  intros Hk. unfold sub_from. apply list_eq. intros i.
  rewrite lookup_map.
  destruct (decide (i < Z.to_nat n)%nat) as [Hin|Hout].
  - rewrite (lookup_py_range_nat n i Hin). simpl.
    destruct (decide (i < Z.to_nat k)%nat) as [Hlt|Hge].
    + rewrite lookup_app_l.
      2:{ rewrite length_take, length_map.
          unfold py_range. rewrite length_map, length_seq. lia. }
      rewrite lookup_take_lt by exact Hlt.
      rewrite lookup_map, (lookup_py_range_nat n i Hin). simpl.
      destruct (Z.ltb_spec (Z.of_nat i) k); [reflexivity | lia].
    + assert (length (take (Z.to_nat k) (map f (py_range n))) = Z.to_nat k)
        as Hlen.
      { rewrite length_take, length_map.
        unfold py_range. rewrite length_map, length_seq. lia. }
      rewrite lookup_app_r by (rewrite Hlen; lia).
      rewrite Hlen, lookup_map, lookup_drop, lookup_map.
      replace (Z.to_nat k + (i - Z.to_nat k))%nat with i by lia.
      rewrite (lookup_py_range_nat n i Hin). simpl.
      destruct (Z.ltb_spec (Z.of_nat i) k); [lia | reflexivity].
  - rewrite (lookup_py_range_ge n i) by lia. simpl.
    apply lookup_ge_None.
    rewrite length_app, length_map, length_take, length_drop, length_map.
    unfold py_range. rewrite length_map, length_seq. lia.
Qed.

(** Two-sided axis, even [n_DFT]: [freq[k] = k/(n_DFT*dt)], less [1/dt] from
    index [floor(n_DFT/2)+1] on. *)
Lemma freq_axis_two_sided_even (n_DFT : Z) (dt : Qc) :
  0 <= n_DFT -> n_DFT mod 2 = 0 ->
  freq_axis false n_DFT dt
  = Ok (map (fun k => if k <? n_DFT / 2 + 1
                      then (Qc_of_Z k / (Qc_of_Z n_DFT * dt))%Qc
                      else (Qc_of_Z k / (Qc_of_Z n_DFT * dt) - 1 / dt)%Qc)
          (py_range n_DFT)).
Proof.
  intros Hn Hev. unfold freq_axis.
  rewrite (proj2 (Z.eqb_eq _ _) Hev).
  rewrite py_int_half_even by exact Hev.
  rewrite sub_from_map_range by (Z.div_mod_to_equations; lia).
  f_equal. apply map_ext. intros k. rewrite Qcdiv_div_swap. reflexivity.
Qed.

(** Two-sided axis, odd [n_DFT]: the slice bound is a float. *)
Lemma freq_axis_two_sided_odd (n_DFT : Z) (dt : Qc) :
  n_DFT mod 2 <> 0 ->
  exists msg, freq_axis false n_DFT dt = Raise (TypeError msg).
Proof.
  intros Hodd. unfold freq_axis.
  destruct (Z.eqb_spec (n_DFT mod 2) 0) as [E|_]; [contradiction|].
  eexists. reflexivity.
Qed.


Lemma parse_parameters_block_count_witness :
  exists cfg warned,
    parse_parameters Fixtures.self_20 true Fixtures.params_blockwise
    = Ok (cfg, warned)
    /\ n_blocks cfg = 4 /\ 2 <= n_blocks cfg /\ 4 <= n_DFT cfg
    /\ n_blocks cfg = (20 - n_overlap cfg) / (n_DFT cfg - n_overlap cfg).
Proof.
  destruct (parse_parameters Fixtures.self_20 true Fixtures.params_blockwise)
    as [[cfg warned]|e] eqn:E.
  - exists cfg, warned. split; [reflexivity|].
    destruct (proj1 (parse_parameters_block_count
                       Fixtures.self_20 true Fixtures.params_blockwise)
                cfg warned E)
      as (H2 & H4 & nd & wv & wn & ov & Hw & Hov & Hd & Ho & Hfl & Hint).
    vm_compute in Hw. inversion Hw; subst nd wv wn.
    vm_compute in Hov. inversion Hov; subst ov.
    assert (n_DFT cfg = 8) as Hd8 by (rewrite Hd; reflexivity).
    assert (n_overlap cfg = 4) as Ho4 by (rewrite Ho; reflexivity).
    assert (n_blocks cfg = 4) as Hb4 by (rewrite Hfl; reflexivity).
    repeat split; try assumption.
    rewrite Hb4, Hd8, Ho4. reflexivity.
  - vm_compute in E. discriminate E.
Defined.

(** The axis of the specification's example: one-sided, [n_DFT = 8],
    [dt = 1]. *)
Example freq_axis_8 :
  freq_axis true 8 1%Qc
  = Ok [Q2Qc 0; Q2Qc (1 # 8); Q2Qc (1 # 4); Q2Qc (3 # 8); Q2Qc (1 # 2)].
Proof.
  rewrite freq_axis_one_sided. f_equal.
  repeat (apply (f_equal2 cons); [apply Qc_is_canon; reflexivity|]).
  reflexivity.
Qed.

(** C3. A two-sided spectrum with an odd window length: the resolver does
    not return an axis wrapped from index [(n_DFT+1)/2+1] on, it raises
    [TypeError] at the slice [freq[(n_DFT+1)/2+1:]]. *)
Theorem parse_parameters_odd_two_sided_raises :
  parse_parameters Fixtures.self_20 false Fixtures.params_odd_complex
  = Raise (TypeError
      "slice indices must be integers or None or have an __index__ method").
Proof. vm_compute. reflexivity. Qed.

(** C4. A constant field of 8 snapshots, 2 blocks: the remainder chunk is
    empty, the handler is called with [t_0 = t_end = nt], reads the one
    frame of index [nt], and the long-time mean is not returned. *)
Theorem parse_parameters_longtime_divisible_raises :
  block_count 8 (Qc_of_Z 4) (Qc_of_Z 0) = 2 /\
  parse_parameters Fixtures.self_8 true Fixtures.params_longtime
  = Raise (IndexError "index out of bounds").
Proof. vm_compute. repeat split; reflexivity. Qed.


(** *** Long-time mean *)

Lemma take_frame_error (data : list frame) (i : Z) (e : exn) :
  take_frame data i = Raise e -> exists msg, e = IndexError msg.
Proof.
  unfold take_frame.
  destruct (_ && _); [destruct (data !! _)|];
    intros H; inversion H; eauto.
Qed.

Lemma take_frames_error (data : list frame) (ti : list Z) (e : exn) :
  take_frames data ti = Raise e -> exists msg, e = IndexError msg.
Proof.
  induction ti as [|i ti IH]; simpl; [discriminate|].
  destruct (take_frame data i) as [f|e'] eqn:Ef; simpl.
  - destruct (take_frames data ti) as [fs|e''] eqn:Efs; simpl;
      [discriminate|].
    intros H; inversion H; subst. apply IH. reflexivity.
  - intros H; inversion H; subst. eapply take_frame_error; eassumption.
Qed.

Lemma data_handler_error (data : list frame) (t_0 t_end : Z)
    (vars : list string) (e : exn) :
  data_handler data t_0 t_end vars = Raise e -> exists msg, e = IndexError msg.
Proof. unfold data_handler. apply take_frames_error. Qed.

Lemma longtime_loop_error (self : spod_self) (sb : Z) (len : nat)
    (iBlks : list Z) (x_sum : frame) (e : exn) :
  _data_handler self = data_handler ->
  longtime_loop self sb len iBlks x_sum = Raise e ->
  exists msg, e = IndexError msg.
Proof.
  intros Hh. revert x_sum.
  induction iBlks as [|i rest IH]; intros x_sum; simpl; [discriminate|].
  rewrite Hh.
  destruct (data_handler _ _ _ _) as [xd|e'] eqn:Ed; simpl.
  - apply IH.
  - intros H; inversion H; subst. eapply data_handler_error; eassumption.
Qed.

(** The single-sample convention at the end of the data: the frame of
    index [nt] does not exist. *)
Lemma data_handler_at_end (data : list frame) (vars : list string) :
  let n := Z.of_nat (length data) in
  data_handler data n n vars = Raise (IndexError "index out of bounds").
Proof.
  intros n. unfold data_handler. rewrite Z.eqb_refl.
  unfold np_arange. replace (n + 1 - n) with 1 by lia. simpl.
  unfold take_frame. fold n.
  replace (n + Z.of_nat 0) with n by lia.
  destruct (Z.ltb_spec n 0) as [Hneg|_]; [lia|].
  destruct (Z.leb_spec 0 n) as [_|Hneg]; [|lia].
  rewrite Z.ltb_irrefl. reflexivity.
Qed.

(** Whenever [nt] is a multiple of [n_blocks] and the data holds exactly
    [nt] frames, the long-time mean raises [IndexError]. *)
Lemma longtime_mean_divisible (self : spod_self) (n_blocks : Z) :
  _data_handler self = data_handler ->
  nt self = Z.of_nat (length (_data self)) ->
  nt self mod n_blocks = 0 ->
  exists msg, longtime_mean self n_blocks = Raise (IndexError msg).
Proof.
  intros Hh Hnt Hdiv. unfold longtime_mean.
  destruct (longtime_loop _ _ _ _ _) as [x_sum|e] eqn:El; simpl.
  - rewrite Hh, Hdiv, Z.sub_0_r, Hnt, data_handler_at_end. simpl. eauto.
  - apply (longtime_loop_error _ _ _ _ _ _ Hh) in El as [msg ->]. eauto.
Qed.

Lemma lookup_repeat {A : Type} (x : A) (n i : nat) :
  (i < n)%nat -> repeat x n !! i = Some x.
Proof.
  revert i. induction n as [|n IH]; intros [|i] Hi; simpl;
    try lia; [reflexivity|].
  apply IH. lia.
Qed.

Lemma take_frames_repeat (f : frame) (n : nat) (ti : list Z) :
  Forall (fun i => 0 <= i < Z.of_nat n) ti ->
  take_frames (repeat f n) ti = Ok (repeat f (length ti)).
Proof.
  induction 1 as [|i ti Hi _ IH]; simpl; [reflexivity|].
  unfold take_frame. rewrite repeat_length.
  destruct (Z.ltb_spec i 0) as [Hneg|_]; [lia|].
  destruct (Z.leb_spec 0 i) as [_|Hneg]; [|lia].
  destruct (Z.ltb_spec i (Z.of_nat n)) as [_|Hge]; [|lia].
  simpl. rewrite (lookup_repeat f n (Z.to_nat i)) by lia.
  simpl. rewrite IH. reflexivity.
Qed.

Lemma np_arange_length (a b : Z) : length (np_arange a b) = Z.to_nat (b - a).
Proof. unfold np_arange. rewrite length_map, length_seq. reflexivity. Qed.

Lemma np_arange_bounds (a b : Z) :
  Forall (fun i => a <= i < b) (np_arange a b).
Proof.
  unfold np_arange. apply List.Forall_forall. intros i Hi.
  apply in_map_iff in Hi as (k & <- & Hk). apply in_seq in Hk. lia.
Qed.

(** A proper chunk [[lb, ub)] of constant data. *)
Lemma data_handler_constant (f : frame) (n : nat) (lb ub : Z)
    (vars : list string) :
  0 <= lb -> lb < ub -> ub <= Z.of_nat n ->
  data_handler (repeat f n) lb ub vars = Ok (repeat f (Z.to_nat (ub - lb))).
Proof.
  intros H0 Hlt Hub. unfold data_handler.
  destruct (Z.eqb_spec lb ub) as [E|_]; [lia|].
  rewrite take_frames_repeat.
  - rewrite np_arange_length. reflexivity.
  - eapply Forall_impl; [apply np_arange_bounds|].
    simpl. intros i Hi. lia.
Qed.

Lemma field_add_repeat (a b : Qc) (len : nat) :
  field_add (repeat a len) (repeat b len) = repeat (a + b)%Qc len.
Proof.
  unfold field_add. induction len as [|len IH]; simpl; [reflexivity|].
  rewrite IH. reflexivity.
Qed.

Lemma fold_field_add_repeat (a c : Qc) (len k : nat) :
  fold_left field_add (repeat (repeat c len) k) (repeat a len)
  = repeat (a + Qc_of_Z (Z.of_nat k) * c)%Qc len.
Proof.
  revert a. induction k as [|k IH]; intros a.
  - cbn [repeat fold_left]. change (Z.of_nat 0) with 0.
    rewrite Z2Qc_inj_0. f_equal. ring.
  - cbn [repeat fold_left]. rewrite field_add_repeat, IH. f_equal.
    rewrite Nat2Z.inj_succ, <- Z.add_1_r, Z2Qc_inj_add, Z2Qc_inj_1. ring.
Qed.

Lemma np_sum_axis0_constant (c : Qc) (len k : nat) :
  np_sum_axis0 len (repeat (repeat c len) k)
  = repeat (Qc_of_Z (Z.of_nat k) * c)%Qc len.
Proof.
  unfold np_sum_axis0. rewrite fold_field_add_repeat. f_equal. ring.
Qed.


Lemma longtime_loop_constant (self : spod_self) (c : Qc) (len n : nat)
    (sb : Z) (iBlks : list Z) (a : Qc) :
  _data_handler self = data_handler ->
  _data self = repeat (repeat c len) n ->
  0 < sb ->
  Forall (fun i => 0 <= i /\ i * sb + sb <= Z.of_nat n) iBlks ->
  longtime_loop self sb len iBlks (repeat a len)
  = Ok (repeat (a + Qc_of_Z (Z.of_nat (length iBlks) * sb) * c)%Qc len).
Proof.
  intros Hh Hd Hsb Hall. revert a.
  induction Hall as [|i rest [Hi0 Hiub] _ IH]; intros a.
  - cbn [longtime_loop length].
    replace (Z.of_nat 0 * sb) with 0 by lia.
    rewrite Z2Qc_inj_0. do 2 f_equal. ring.
  - cbn [longtime_loop]. rewrite Hh, Hd.
    rewrite data_handler_constant by nia.
    simpl. rewrite np_sum_axis0_constant, field_add_repeat, IH.
    do 2 f_equal.
    replace (i * sb + sb - i * sb) with sb by lia.
    rewrite Z2Nat.id by lia.
    replace (Z.of_nat (S (length rest)) * sb)
      with (sb + Z.of_nat (length rest) * sb) by lia.
    rewrite Z2Qc_inj_add. ring.
Qed.

Lemma field_div_repeat (v d : Qc) (len : nat) :
  field_div (repeat v len) d = repeat (v / d)%Qc len.
Proof.
  unfold field_div. induction len as [|len IH]; simpl; [reflexivity|].
  rewrite IH. reflexivity.
Qed.

(** Outside the divisible case the chunked sum covers every snapshot once:
    over a field equal to [c] everywhere the long-time mean is [c]
    everywhere (in exact arithmetic). *)
Lemma longtime_mean_constant (self : spod_self) (c : Qc) (n : nat)
    (n_blocks : Z) :
  _data_handler self = data_handler ->
  _data self = repeat (repeat c (Z.to_nat (nx self * nv self))) n ->
  nt self <= Z.of_nat n ->
  0 < n_blocks <= nt self ->
  nt self mod n_blocks <> 0 ->
  longtime_mean self n_blocks
  = Ok {| shape := [nx self * nv self];
          elems := repeat c (Z.to_nat (nx self * nv self)) |}.
Proof.
  intros Hh Hd Hn Hb Hres. unfold longtime_mean.
  set (len := Z.to_nat (nx self * nv self)) in *.
  set (sb := nt self / n_blocks).
  set (res := nt self mod n_blocks) in *.
  assert (nt self = n_blocks * sb + res) as Hsplit
    by (apply Z.div_mod; lia).
  assert (0 <= res < n_blocks) as Hrb by (apply Z.mod_pos_bound; lia).
  assert (0 < sb) as Hsb.
  { apply Z.div_str_pos. lia. }
  rewrite (longtime_loop_constant self c len n sb _ _ Hh Hd Hsb).
  2:{ apply List.Forall_forall. intros i Hi. apply py_range_In in Hi. nia. }
  simpl. rewrite Hh, Hd.
  rewrite data_handler_constant by lia.
  simpl. rewrite np_sum_axis0_constant, field_add_repeat, field_div_repeat.
  do 3 f_equal.
  replace (nt self - (nt self - res)) with res by lia.
  rewrite Z2Nat.id by lia.
  rewrite py_range_length by lia.
  assert (Qc_of_Z (nt self) <> Q2Qc 0) as Hnz.
  { rewrite <- Z2Qc_inj_0. intros E. apply Z2Qc_inj in E. lia. }
  assert (Qc_of_Z (n_blocks * sb) = Qc_of_Z (nt self) - Qc_of_Z res)%Qc
    as -> by (rewrite <- Z2Qc_inj_sub; f_equal; lia).
  field. exact Hnz.
Qed.


(** *** Mean keywords *)

(** The keyword ["zero"] is not one the resolver knows. *)
Lemma mean_zero_word_rejected :
  parse_parameters Fixtures.self_20 true Fixtures.params_mean_zero_word
  = Raise (ValueError "zero not recognized.").
Proof. vm_compute. reflexivity. Qed.

(** C7 (as the code has it). The keyword that selects "no mean removed" is
    the string ["0"]: the mean step then always returns the scalar 0 under
    the name ["zero"] with one warning, the resolver returns exactly when
    it returns for ["blockwise"], and what it returns carries that mean and
    that warning. The string ["zero"] raises [ValueError]. *)
Theorem mean_keyword_0_warns
    (self : spod_self) (isrealx : bool) (params : params) :
  p_mean params = MStr "0" ->
  (forall n_blocks,
     resolve_mean self n_blocks (p_mean params)
     = Ok (MeanScalar 0, "zero", [no_mean_warning]))
  /\ (forall cfg warned,
        parse_parameters self isrealx params = Ok (cfg, warned) ->
        x_mean cfg = MeanScalar 0 /\ mean_name cfg = "zero" /\
        warned = [no_mean_warning])
  /\ ((exists cfg warned,
         parse_parameters self isrealx params = Ok (cfg, warned)) <->
      (exists cfg warned,
         parse_parameters self isrealx (with_mean (MStr "blockwise") params)
         = Ok (cfg, warned)))
  /\ (forall n_blocks,
        resolve_mean self n_blocks (MStr "zero")
        = Raise (ValueError "zero not recognized.")).
Proof.
  intros Hm. repeat split.
  - intros n_blocks. rewrite Hm. reflexivity.
  - unfold parse_parameters in H. rewrite Hm in H.
    apply bind_Ok in H as ([[nd wv] wn] & _ & H).
    apply bind_Ok in H as ([wts wtn] & _ & H).
    apply bind_Ok in H as (ov & _ & H).
    destruct (_ || _); [discriminate H|].
    cbn [resolve_mean] in H. simpl in H.
    apply bind_Ok in H as (fr & _ & H).
    inversion H; subst. reflexivity.
  - unfold parse_parameters in H. rewrite Hm in H.
    apply bind_Ok in H as ([[nd wv] wn] & _ & H).
    apply bind_Ok in H as ([wts wtn] & _ & H).
    apply bind_Ok in H as (ov & _ & H).
    destruct (_ || _); [discriminate H|].
    simpl in H.
    apply bind_Ok in H as (fr & _ & H).
    inversion H; subst. reflexivity.
  - unfold parse_parameters in H. rewrite Hm in H.
    apply bind_Ok in H as ([[nd wv] wn] & _ & H).
    apply bind_Ok in H as ([wts wtn] & _ & H).
    apply bind_Ok in H as (ov & _ & H).
    destruct (_ || _); [discriminate H|].
    simpl in H.
    apply bind_Ok in H as (fr & _ & H).
    inversion H; subst. reflexivity.
  - intros (cfg & warned & H).
    unfold parse_parameters in *. rewrite Hm in H. cbn [with_mean p_n_FFT
      p_weights p_n_overlap p_mean p_dt].
    destruct (resolve_window self (p_n_FFT params)) as [[[nd wv] wn]|];
      [|discriminate H].
    destruct (resolve_weights self (p_weights params)) as [[wts wtn]|];
      [|discriminate H].
    simpl in *.
    destruct (resolve_overlap nd (p_n_overlap params)) as [ov|];
      [|discriminate H].
    simpl in *.
    destruct (_ || _); [discriminate H|].
    destruct (freq_axis _ _ _) as [fr|]; [|discriminate H].
    simpl. eauto.
  - intros (cfg & warned & H).
    unfold parse_parameters in *. rewrite Hm. cbn [with_mean p_n_FFT
      p_weights p_n_overlap p_mean p_dt] in H.
    destruct (resolve_window self (p_n_FFT params)) as [[[nd wv] wn]|];
      [|discriminate H].
    destruct (resolve_weights self (p_weights params)) as [[wts wtn]|];
      [|discriminate H].
    simpl in *.
    destruct (resolve_overlap nd (p_n_overlap params)) as [ov|];
      [|discriminate H].
    simpl in *.
    destruct (_ || _); [discriminate H|].
    destruct (freq_axis _ _ _) as [fr|]; [|discriminate H].
    simpl. eauto.
Qed.

Lemma mean_keyword_0_warns_witness :
  exists cfg,
    parse_parameters Fixtures.self_20 true Fixtures.params_mean_zero_digit
    = Ok (cfg, [no_mean_warning])
    /\ x_mean cfg = MeanScalar 0 /\ mean_name cfg = "zero".
Proof.
  destruct (parse_parameters Fixtures.self_20 true
              Fixtures.params_mean_zero_digit) as [[cfg warned]|e] eqn:E.
  - destruct (mean_keyword_0_warns Fixtures.self_20 true
                Fixtures.params_mean_zero_digit eq_refl)
      as (_ & Hret & _).
    destruct (Hret cfg warned E) as (Hx & Hn & ->).
    exists cfg. repeat split; assumption.
  - vm_compute in E. discriminate E.
Defined.


(** *** Weights *)

(** Weights that already have shape [(nx, nv)] are handed back in that
    shape, not as a column. *)
Lemma weights_shape_kept :
  exists cfg warned,
    parse_parameters Fixtures.self_2x2 true
      (Fixtures.params_weights (Some Fixtures.weights_2x2))
    = Ok (cfg, warned)
    /\ np_size Fixtures.weights_2x2
       = nx Fixtures.self_2x2 * nv Fixtures.self_2x2
    /\ shape (weights cfg) = [2; 2]
    /\ shape (weights cfg)
       <> [nx Fixtures.self_2x2 * nv Fixtures.self_2x2; 1].
Proof.
  eexists. eexists. split; [vm_compute; reflexivity|].
  split; [reflexivity|]. split; [reflexivity|]. discriminate.
Qed.

(** C8 (as the code has it). Weights whose size differs from [nx*nv] make
    the resolver raise [ValueError]. Weights of the right size are handed
    back unchanged when their shape is already [(nx, nv)] and reshaped to
    [(nx*nv, 1)] otherwise, the elements kept in order. Without weights the
    resolver hands back ones of shape [(nx*nv, 1)]. *)
Theorem weights_resolution
    (self : spod_self) (isrealx : bool) (params : params) :
  (forall w, p_weights params = Some w ->
     np_size w <> nx self * nv self ->
     is_ValueError (parse_parameters self isrealx params))
  /\
  (forall w, p_weights params = Some w ->
     np_size w = nx self * nv self ->
     let w' := if bool_decide (shape w = [nx self; nv self]) then w
               else {| shape := [nx self * nv self; 1]; elems := elems w |} in
     resolve_weights self (p_weights params) = Ok (w', "user-specified")
     /\ forall cfg warned,
          parse_parameters self isrealx params = Ok (cfg, warned) ->
          weights cfg = w')
  /\
  (p_weights params = None ->
     (0 <= nx self * nv self ->
      resolve_weights self (p_weights params)
      = Ok (np_ones_col (nx self * nv self), "uniform"))
     /\ forall cfg warned,
          parse_parameters self isrealx params = Ok (cfg, warned) ->
          weights cfg = np_ones_col (nx self * nv self)
          /\ shape (weights cfg) = [nx self * nv self; 1]
          /\ Forall (fun x => x = 1%Qc) (elems (weights cfg))).
Proof.
  split; [|split].
  - intros w Hw Hsz. unfold parse_parameters.
    destruct (resolve_window self (p_n_FFT params)) as [[[nd wv] wn]|e] eqn:E.
    2:{ apply resolve_window_error in E as [msg ->]. exact I. }
    simpl. rewrite Hw. unfold resolve_weights.
    destruct (Z.eqb_spec (np_size w) (nx self * nv self)) as [Eq|_];
      [contradiction|].
    exact I.
  - intros w Hw Hsz w'.
    assert (resolve_weights self (p_weights params)
            = Ok (w', "user-specified")) as Hstep.
    { rewrite Hw. unfold resolve_weights.
      rewrite (proj2 (Z.eqb_eq _ _) Hsz). simpl. subst w'.
      destruct (bool_decide _); reflexivity. }
    split; [exact Hstep|].
    intros cfg warned H. unfold parse_parameters in H.
    apply bind_Ok in H as ([[nd wv] wn] & _ & H).
    rewrite Hstep in H. simpl in H.
    apply bind_Ok in H as (ov & _ & H).
    destruct (_ || _); [discriminate H|].
    apply bind_Ok in H as ([[xm mn] wl] & _ & H).
    apply bind_Ok in H as (fr & _ & H).
    inversion H; subst. reflexivity.
  - intros Hw. split.
    + intros Hpos. rewrite Hw. unfold resolve_weights.
      destruct (Z.ltb_spec (nx self * nv self) 0) as [Hneg|_]; [lia|].
      reflexivity.
    + intros cfg warned H. unfold parse_parameters in H.
      apply bind_Ok in H as ([[nd wv] wn] & _ & H).
      rewrite Hw in H. unfold resolve_weights in H.
      destruct (nx self * nv self <? 0); [discriminate H|].
      simpl in H.
      apply bind_Ok in H as (ov & _ & H).
      destruct (_ || _); [discriminate H|].
      apply bind_Ok in H as ([[xm mn] wl] & _ & H).
      apply bind_Ok in H as (fr & _ & H).
      inversion H; subst. simpl.
      split; [reflexivity|]. split; [reflexivity|].
      apply List.Forall_forall. intros x Hx.
      apply repeat_spec in Hx. exact Hx.
Qed.

Lemma weights_resolution_witness :
  is_ValueError
    (parse_parameters Fixtures.self_2x2 true
       (Fixtures.params_weights (Some Fixtures.weights_flat3)))
  /\ (exists cfg warned,
        parse_parameters Fixtures.self_2x2 true
          (Fixtures.params_weights (Some Fixtures.weights_flat4))
        = Ok (cfg, warned)
        /\ shape (weights cfg) = [4; 1]
        /\ elems (weights cfg) = elems Fixtures.weights_flat4)
  /\ (exists cfg warned,
        parse_parameters Fixtures.self_2x2 true (Fixtures.params_weights None)
        = Ok (cfg, warned)
        /\ shape (weights cfg) = [4; 1]).
Proof.
  split; [|split].
  - apply (proj1 (weights_resolution Fixtures.self_2x2 true
                    (Fixtures.params_weights (Some Fixtures.weights_flat3)))
             Fixtures.weights_flat3 eq_refl).
    vm_compute. discriminate.
  - destruct (parse_parameters Fixtures.self_2x2 true
                (Fixtures.params_weights (Some Fixtures.weights_flat4)))
      as [[cfg warned]|e] eqn:E.
    + exists cfg, warned. split; [reflexivity|].
      destruct (proj1 (proj2 (weights_resolution Fixtures.self_2x2 true
                  (Fixtures.params_weights (Some Fixtures.weights_flat4))))
                  Fixtures.weights_flat4 eq_refl eq_refl) as [_ Hret].
      rewrite (Hret cfg warned E). split; reflexivity.
    + vm_compute in E. discriminate E.
  - destruct (parse_parameters Fixtures.self_2x2 true
                (Fixtures.params_weights None))
      as [[cfg warned]|e] eqn:E.
    + exists cfg, warned. split; [reflexivity|].
      destruct (proj2 (proj2 (weights_resolution Fixtures.self_2x2 true
                  (Fixtures.params_weights None))) eq_refl) as [_ Hret].
      destruct (Hret cfg warned E) as (_ & Hs & _). exact Hs.
    + vm_compute in E. discriminate E.
Defined.


End ResolverFacts.

Module InitFacts.
Import Py Resolver Init.

Lemma parse_parameters_conf_level (self : spod_self) (isrealx : bool)
    (v : Qc) (p : params) :
  parse_parameters self isrealx (with_conf_level v p)
  = parse_parameters self isrealx p.
Proof. reflexivity. Qed.

Section ConfidenceLevel.

Variable gammaincinv : Z -> spec_float -> spec_float.
Variable CWD : string.

(** C10. Two constructions that differ only in the value stored under
    ['conf_level'] end alike: both raise the same exception, or both return,
    with the stored confidence level equal to the binary64 constant 0.95,
    the multipliers equal to [2*gammaincinv(n_blocks, 1-0.95)] and
    [2*gammaincinv(n_blocks, 0.95)], and the same resolved configuration. *)
Theorem conf_level_value_ignored
    (data : dataset) (params : params) (data_handler : option handler)
    (variables : list string) (v1 v2 : Qc) :
  match __init__ gammaincinv CWD data (with_conf_level v1 params)
          data_handler variables,
        __init__ gammaincinv CWD data (with_conf_level v2 params)
          data_handler variables
  with
  | Ok (o1, w1), Ok (o2, w2) =>
      _conf_interval o1 = true /\ _conf_interval o2 = true /\
      _conf_level o1 = Some f_0_95 /\ _conf_level o2 = Some f_0_95 /\
      _xi2_upper o1
      = Some (SFmul prec emax f_2
                (gammaincinv (n_blocks (_config o1))
                   (SFsub prec emax f_1 f_0_95))) /\
      _xi2_lower o1
      = Some (SFmul prec emax f_2
                (gammaincinv (n_blocks (_config o1)) f_0_95)) /\
      _xi2_upper o1 = _xi2_upper o2 /\
      _xi2_lower o1 = _xi2_lower o2 /\
      _config o1 = _config o2 /\ w1 = w2
  | Raise e1, Raise e2 => e1 = e2
  | _, _ => False
  end.
Proof.
  unfold __init__.
  cbn [with_conf_level p_nt p_xdim p_nv p_isreal p_conf_level p_savedir].
  destruct (match data_handler with
            | Some h => h (d_frames data) 0 1 variables
            | None => Resolver.data_handler (d_frames data) 0 0 variables
            end) as [X|e]; simpl; [|reflexivity].
  destruct X as [|x X]; [reflexivity|].
  destruct (if (p_nv params =? 1)
               && negb (Z.of_nat (length (d_shape data)) + 1
                        =? p_xdim params + 2)
            then d_shape data ++ [1] else d_shape data) as [|d ds];
    [reflexivity|].
  rewrite !parse_parameters_conf_level.
  destruct (parse_parameters _ _ params) as [[cfg warned]|e]; simpl;
    [|reflexivity].
  repeat split; reflexivity.
Qed.

(** The returning case is met: a run over 20 snapshots, whatever the value
    stored under ['conf_level']. *)
Example conf_level_run (v : Qc) :
  exists o w,
    __init__ gammaincinv CWD Fixtures.dataset_20
      (with_conf_level v Fixtures.params_blockwise) None ["u"]
    = Ok (o, w)
    /\ _conf_level o = Some f_0_95
    /\ n_blocks (_config o) = 4.
Proof.
  eexists. eexists. split; [vm_compute; reflexivity|].
  split; reflexivity.
Qed.

(** The objects used in the projector and emulator examples are what the
    constructor builds: the fields those methods read agree. *)
Example init_builds_obj_8 :
  exists o w,
    __init__ gammaincinv CWD Fixtures.dataset_8 Fixtures.params_8 None ["u"]
    = Ok (o, w)
    /\ nx (_self o) = nx (_self Fixtures.obj_8)
    /\ n_blocks (_config o) = n_blocks (_config Fixtures.obj_8)
    /\ n_freq (_config o) = n_freq (_config Fixtures.obj_8)
    /\ weights (_config o) = weights (_config Fixtures.obj_8)
    /\ _params o = _params Fixtures.obj_8
    /\ _save_dir_blocks o = _save_dir_blocks Fixtures.obj_8.
Proof.
  eexists. eexists. split; [vm_compute; reflexivity|].
  repeat split; reflexivity.
Qed.

Example init_builds_obj_40 :
  exists o w,
    __init__ gammaincinv CWD Fixtures.dataset_40 Fixtures.params_40 None ["u"]
    = Ok (o, w)
    /\ nx (_self o) = nx (_self Fixtures.obj_40)
    /\ n_blocks (_config o) = n_blocks (_config Fixtures.obj_40)
    /\ n_freq (_config o) = n_freq (_config Fixtures.obj_40)
    /\ weights (_config o) = weights (_config Fixtures.obj_40)
    /\ _params o = _params Fixtures.obj_40
    /\ _save_dir_blocks o = _save_dir_blocks Fixtures.obj_40.
Proof.
  eexists. eexists. split; [vm_compute; reflexivity|].
  repeat split; reflexivity.
Qed.


(** The constructor itself fails on the run of 8 constant snapshots with
    the long-time mean: the error of the resolver is not caught. *)
Example init_longtime_divisible_raises :
  __init__ gammaincinv CWD Fixtures.dataset_8 Fixtures.params_longtime
    None ["u"]
  = Raise (IndexError "index out of bounds").
Proof. vm_compute. reflexivity. Qed.


End ConfidenceLevel.

End InitFacts.

Module ComplexFacts.
Import Py Complex PyFacts.

Lemma nth_flat_map_rows {A B : Type} (g : A -> list B) (n : nat)
    (l : list A) (i j : nat) (x0 : A) (d : B) :
  (forall x, length (g x) = n) ->
  (i < length l)%nat -> (j < n)%nat ->
  nth (i * n + j) (flat_map g l) d = nth j (g (nth i l x0)) d.
Proof.
  intros Hlen. revert i.
  induction l as [|x l IH]; intros i Hi Hj; simpl in Hi; [lia|].
  simpl flat_map. destruct i as [|i].
  - simpl. apply app_nth1. rewrite Hlen. exact Hj.
  - rewrite app_nth2 by (rewrite Hlen; lia).
    rewrite Hlen. replace (S i * n + j - n)%nat with (i * n + j)%nat by lia.
    simpl nth. apply IH; [lia | exact Hj].
Qed.

Lemma length_flat_map_rows {A B : Type} (g : A -> list B) (n : nat)
    (l : list A) :
  (forall x, length (g x) = n) ->
  length (flat_map g l) = (length l * n)%nat.
Proof.
  intros Hlen. induction l as [|x l IH]; simpl; [reflexivity|].
  rewrite length_app, Hlen, IH. reflexivity.
Qed.

Lemma py_range_length_nat (n : Z) : length (py_range n) = Z.to_nat n.
Proof. unfold py_range. rewrite length_map, length_seq. reflexivity. Qed.

Lemma nth_py_range (n : Z) (i : nat) :
  (i < Z.to_nat n)%nat -> nth i (py_range n) 0 = Z.of_nat i.
Proof.
  intros Hi. unfold py_range.
  change 0 with (Z.of_nat 0). rewrite map_nth, seq_nth by exact Hi.
  reflexivity.
Qed.

Lemma length_tabulate2 (r c : Z) (f : Z -> Z -> C) :
  length (tabulate2 r c f) = (Z.to_nat r * Z.to_nat c)%nat.
Proof.
  unfold tabulate2.
  rewrite (length_flat_map_rows _ (Z.to_nat c)).
  - rewrite py_range_length_nat. reflexivity.
  - intros i. rewrite length_map. apply py_range_length_nat.
Qed.

(** Entry [(i, j)] of the array built from [f] is [f i j]. *)
Lemma at2_mat (r c : Z) (f : Z -> Z -> C) (i j : Z) :
  0 <= i < r -> 0 <= j < c -> at2 (mat r c f) i j = f i j.
Proof.
  intros Hi Hj. unfold at2, mat, tabulate2. simpl.
  replace (Z.to_nat (i * c + j))
    with (Z.to_nat i * Z.to_nat c + Z.to_nat j)%nat by nia.
  rewrite (nth_flat_map_rows _ (Z.to_nat c) _ _ _ 0).
  - rewrite nth_py_range by lia.
    rewrite (nth_indep _ C0 (f (Z.of_nat (Z.to_nat i)) 0)).
    2:{ rewrite length_map, py_range_length_nat. lia. }
    rewrite (map_nth (fun j0 => f (Z.of_nat (Z.to_nat i)) j0)).
    rewrite nth_py_range by lia.
    rewrite !Z2Nat.id by lia. reflexivity.
  - intros x. rewrite length_map. apply py_range_length_nat.
  - rewrite py_range_length_nat. lia.
  - lia.
Qed.

Lemma broadcast_dim_wide (d1 d2 d : Z) :
  2 <= d1 -> broadcast_dim d1 d2 = Ok d -> d = d1.
Proof.
  intros Hd. unfold broadcast_dim.
  destruct (Z.eqb_spec d1 d2); [intros H; inversion H; reflexivity|].
  destruct (Z.eqb_spec d1 1); [lia|].
  destruct (Z.eqb_spec d2 1); [intros H; inversion H; reflexivity|].
  discriminate.
Qed.

Lemma np_mul_shape (a b p : cndarray) :
  np_mul a b = Ok p ->
  exists r1 c1 r2 c2 r c,
    cshape a = [r1; c1] /\ cshape b = [r2; c2] /\
    broadcast_dim r1 r2 = Ok r /\ broadcast_dim c1 c2 = Ok c /\
    cshape p = [r; c].
Proof.
  unfold np_mul.
  destruct (cshape a) as [|r1 [|c1 [|? ?]]]; try discriminate.
  destruct (cshape b) as [|r2 [|c2 [|? ?]]]; try discriminate.
  destruct (broadcast_dim r1 r2) as [r|] eqn:Er; [|discriminate].
  destruct (broadcast_dim c1 c2) as [c|] eqn:Ec; [|discriminate].
  simpl. intros H. inversion H; subst p.
  exists r1, c1, r2, c2, r, c. repeat split; reflexivity || assumption.
Qed.

Lemma np_matmul_shape (a b p : cndarray) :
  np_matmul a b = Ok p ->
  exists r1 c1 c2,
    cshape a = [r1; c1] /\ cshape b = [c1; c2] /\
    p = mat r1 c2 (fun i j => Csum c1 (fun k => Cmul (at2 a i k) (at2 b k j))).
Proof.
  unfold np_matmul.
  destruct (cshape a) as [|r1 [|c1 [|? ?]]]; try discriminate.
  destruct (cshape b) as [|r2 [|c2 [|? ?]]]; try discriminate.
  destruct (Z.eqb_spec c1 r2) as [->|]; [|discriminate].
  intros H. inversion H; subst p.
  exists r1, r2, c2. repeat split; reflexivity.
Qed.

Lemma reshape_cols_shape (a p : cndarray) (m : Z) :
  reshape_cols a m = Ok p ->
  0 < m /\ cshape p = [csize a / m; m] /\ celems p = celems a.
Proof.
  unfold reshape_cols.
  destruct (Z.leb_spec m 0) as [|Hm]; [discriminate|].
  destruct (negb _); [discriminate|].
  intros Heq. inversion Heq; subst p. simpl.
  repeat split; [lia|..]; reflexivity.
Qed.

End ComplexFacts.

Module ProjectorFacts.
Import Py Resolver Init Complex Projector PyFacts ComplexFacts ResolverFacts.

Lemma set_column_shape (q : cndarray) (iBlk : Z) (v : list C) (r c : Z) :
  cshape q = [r; c] -> cshape (set_column q iBlk v) = [r; c].
Proof. intros Hq. unfold set_column. rewrite Hq. reflexivity. Qed.

Lemma load_blocks_shape (st : store) (dir : string) (nx iFreq : Z)
    (iBlks : list Z) (q q' : cndarray) (r c : Z) :
  cshape q = [r; c] ->
  load_blocks st dir nx iFreq iBlks q = Ok q' ->
  cshape q' = [r; c].
Proof.
  revert q. induction iBlks as [|iBlk rest IH]; intros q Hq; simpl.
  - intros H. inversion H; subst q'. exact Hq.
  - intros H.
    apply bind_Ok in H as (a & _ & H).
    apply bind_Ok in H as (v & _ & H).
    eapply IH; [|exact H]. apply set_column_shape. exact Hq.
Qed.

(** The matrix written by the source has one row per block and one column
    per mode. *)
Lemma inner_product_shape (Psi Q w a : cndarray) (P m r nb : Z) :
  cshape Psi = [P; m] -> cshape Q = [r; nb] -> 2 <= nb ->
  inner_product Psi Q w = Ok a ->
  cshape a = [nb; m]
  /\ length (celems a) = (Z.to_nat nb * Z.to_nat m)%nat.
Proof.
  intros HPsi HQ Hnb H. unfold inner_product in H.
  apply bind_Ok in H as (qw & Hqw & H).
  apply bind_Ok in H as (p & Hp & H).
  inversion H; subst a; clear H.
  apply np_mul_shape in Hqw
    as (r1 & c1 & r2 & c2 & r' & c' & HQ' & _ & _ & Hc & Hqw).
  rewrite HQ in HQ'. inversion HQ'; subst r1 c1.
  apply broadcast_dim_wide in Hc; [|exact Hnb]. subst c'.
  apply np_matmul_shape in Hp as (m' & P' & nb' & HT & Hqw' & ->).
  unfold np_T in HT. rewrite HPsi in HT. simpl in HT.
  inversion HT; subst m' P'.
  rewrite Hqw in Hqw'. inversion Hqw'; subst r' nb'.
  unfold np_T at 1 2. simpl.
  split; [reflexivity|]. apply length_tabulate2.
Qed.

Lemma project_frequency_saves (self : spod_obj) (st st' : store)
    (iFreq : Z) :
  2 <= n_blocks (_config self) ->
  project_frequency self st iFreq = Ok st' ->
  exists a,
    st' = <[coeffs_file (_save_dir_blocks self) (n_modes_save_of self) iFreq
            := a]> st
    /\ coefficient_matrix self a.
Proof.
  intros Hnb H. unfold project_frequency in H.
  destruct (_ || _); [discriminate H|].
  apply bind_Ok in H as (Q & HQ & H).
  apply bind_Ok in H as (Psi0 & _ & H).
  apply bind_Ok in H as (Psi & HPsi & H).
  apply bind_Ok in H as (a & Ha & H).
  inversion H; subst st'; clear H.
  exists a. split; [reflexivity|].
  apply reshape_cols_shape in HPsi as (_ & HPsi & _).
  eapply inner_product_shape; [exact HPsi | | exact Hnb | exact Ha].
  eapply load_blocks_shape; [|exact HQ]. reflexivity.
Qed.

Lemma project_loop_saves (self : spod_obj) (iFreqs : list Z)
    (st st' : store) :
  2 <= n_blocks (_config self) ->
  project_loop self iFreqs st = Ok st' ->
  forall iFreq,
    saved_at self st iFreq \/ In iFreq iFreqs -> saved_at self st' iFreq.
Proof.
  intros Hnb. revert st.
  induction iFreqs as [|i rest IH]; intros st H iFreq Hin; simpl in H.
  - inversion H; subst st'. destruct Hin as [Hs|[]]. exact Hs.
  - apply bind_Ok in H as (st1 & Hstep & H).
    apply (IH st1 H).
    apply (project_frequency_saves self st st1 i Hnb) in Hstep
      as (a & -> & Ha).
    destruct Hin as [(b & Hb & Hgood)|[<-|Hin]].
    + left. unfold saved_at.
      destruct (decide
        (coeffs_file (_save_dir_blocks self) (n_modes_save_of self) i
         = coeffs_file (_save_dir_blocks self) (n_modes_save_of self) iFreq))
        as [E|NE].
      * exists a. rewrite E, lookup_insert_eq. split; [reflexivity|exact Ha].
      * exists b. rewrite lookup_insert_ne by exact NE.
        split; [exact Hb|exact Hgood].
    + left. exists a. rewrite lookup_insert_eq.
      split; [reflexivity|exact Ha].
    + right. exact Hin.
Qed.

(** The persisted matrix has shape [(n_blocks, n_modes_save)], not its
    transpose: two blocks and one mode give a 2 x 1 matrix. *)
Lemma saved_coefficients_not_modes_by_blocks :
  exists a,
    saved_coefficients Fixtures.obj_8 Fixtures.store_8 0 = Ok a
    /\ n_modes_save_of Fixtures.obj_8 = 1
    /\ n_blocks (_config Fixtures.obj_8) = 2
    /\ cshape a = [2; 1]
    /\ cshape a <> [n_modes_save_of Fixtures.obj_8;
                    n_blocks (_config Fixtures.obj_8)].
Proof.
  eexists. split; [vm_compute; reflexivity|].
  repeat split; try reflexivity. discriminate.
Qed.

(** C9 (as the code has it). Once [get_coefficients] has run, the file
    [coeffs1to{n_modes_save:04d}_freq{iFreq:04d}.npy] of every frequency
    index holds a complex matrix of shape [(n_blocks, n_modes_save)]. *)
Theorem saved_coefficients_shape (self : spod_obj) (st st' : store) :
  2 <= n_blocks (_config self) ->
  get_coefficients self st = Ok st' ->
  forall iFreq, 0 <= iFreq < n_freq (_config self) ->
    exists a,
      saved_coefficients self st iFreq = Ok a
      /\ st' !! coeffs_file (_save_dir_blocks self) (n_modes_save_of self)
                  iFreq = Some a
      /\ cshape a = [n_blocks (_config self); n_modes_save_of self]
      /\ length (celems a)
         = (Z.to_nat (n_blocks (_config self))
            * Z.to_nat (n_modes_save_of self))%nat.
Proof.
  intros Hnb Hrun iFreq Hf.
  destruct (project_loop_saves self _ st st' Hnb Hrun iFreq)
    as (a & Ha & Hshape & Hlen).
  { right. apply py_range_In. exact Hf. }
  exists a. unfold saved_coefficients. rewrite Hrun. simpl.
  unfold np_load. rewrite Ha. repeat split; assumption.
Qed.

Lemma saved_coefficients_shape_witness :
  exists a,
    saved_coefficients Fixtures.obj_8 Fixtures.store_8 2 = Ok a
    /\ cshape a = [2; 1] /\ length (celems a) = 2%nat.
Proof.
  destruct (get_coefficients Fixtures.obj_8 Fixtures.store_8)
    as [st'|e] eqn:E.
  - destruct (saved_coefficients_shape Fixtures.obj_8 Fixtures.store_8 st'
                ltac:(simpl; lia) E 2 ltac:(simpl; lia))
      as (a & Ha & _ & Hs & Hl).
    exists a. repeat split; assumption.
  - vm_compute in E. discriminate E.
Defined.

(** *** The formula of the inner product *)

Lemma Csum_ext (n : Z) (f g : Z -> C) :
  (forall k, 0 <= k < n -> f k = g k) -> Csum n f = Csum n g.
Proof.
  intros Hfg. unfold Csum. f_equal.
  apply map_ext_in. intros k Hk. apply Hfg. apply py_range_In. exact Hk.
Qed.

Lemma np_mul_column (Q w : cndarray) (P nb : Z) :
  cshape Q = [P; nb] -> cshape w = [P; 1] ->
  exists qw,
    np_mul Q w = Ok qw /\ cshape qw = [P; nb] /\
    forall x b, 0 <= x < P -> 0 <= b < nb ->
      at2 qw x b = Cmul (at2 Q x b) (at2 w x 0).
Proof.
  intros HQ Hw. unfold np_mul. rewrite HQ, Hw.
  assert (broadcast_dim P P = Ok P) as HbP.
  { unfold broadcast_dim. rewrite Z.eqb_refl. reflexivity. }
  assert (broadcast_dim nb 1 = Ok nb) as Hbn.
  { unfold broadcast_dim. destruct (Z.eqb_spec nb 1) as [->|_];
      [reflexivity|]. simpl. reflexivity. }
  rewrite HbP. simpl. rewrite Hbn. simpl. eexists. split; [reflexivity|]. split; [reflexivity|].
  intros x b Hx Hb. rewrite at2_mat by assumption.
  destruct (Z.eqb_spec P 1) as [HP|_];
    destruct (Z.eqb_spec nb 1) as [Hn|_];
    repeat f_equal; lia.
Qed.

Lemma np_T_2d (a : cndarray) (r c : Z) :
  cshape a = [r; c] -> np_T a = mat c r (fun i j => at2 a j i).
Proof. intros Ha. unfold np_T. rewrite Ha. reflexivity. Qed.

Lemma np_H_2d (a : cndarray) (r c : Z) :
  cshape a = [r; c] -> np_H a = mat c r (fun i j => Cconj (at2 a j i)).
Proof. intros Ha. unfold np_H. rewrite Ha. reflexivity. Qed.

Lemma np_matmul_2d (a b : cndarray) (r n c : Z) :
  cshape a = [r; n] -> cshape b = [n; c] ->
  np_matmul a b
  = Ok (mat r c (fun i j => Csum n (fun k => Cmul (at2 a i k) (at2 b k j)))).
Proof.
  intros Ha Hb. unfold np_matmul. rewrite Ha, Hb, Z.eqb_refl. reflexivity.
Qed.

(** The source computes [a_k[b, k] = sum_x Psi[x, k] * (Q_hat_f[x, b] * w[x])]:
    the weights multiply [Q_hat_f], the modes enter transposed and are not
    conjugated, and the result has one row per block. *)
Lemma inner_product_entries (Psi Q w : cndarray) (P m nb : Z) :
  cshape Psi = [P; m] -> cshape Q = [P; nb] -> cshape w = [P; 1] ->
  exists a,
    inner_product Psi Q w = Ok a /\ cshape a = [nb; m] /\
    forall b k, 0 <= b < nb -> 0 <= k < m ->
      at2 a b k
      = Csum P (fun x => Cmul (at2 Psi x k) (Cmul (at2 Q x b) (at2 w x 0))).
Proof.
  intros HPsi HQ Hw. unfold inner_product.
  destruct (np_mul_column Q w P nb HQ Hw) as (qw & -> & Hqw & Hent).
  rewrite (np_T_2d Psi P m HPsi).
  cbn [mbind result_bind Py.bind].
  erewrite np_matmul_2d; [|reflexivity|exact Hqw].
  cbn [mbind result_bind Py.bind].
  erewrite np_T_2d; [|reflexivity].
  eexists. split; [reflexivity|]. split; [reflexivity|].
  intros b k Hb Hk. rewrite at2_mat by assumption.
  rewrite at2_mat by assumption.
  apply Csum_ext. intros x Hx.
  rewrite at2_mat by assumption.
  rewrite Hent by assumption. reflexivity.
Qed.

(** The formula of the specification differs by the conjugate only. *)
Lemma inner_product_spec_entries (Psi Q w : cndarray) (P m nb : Z) :
  cshape Psi = [P; m] -> cshape Q = [P; nb] -> cshape w = [P; 1] ->
  exists a,
    inner_product_spec Psi Q w = Ok a /\ cshape a = [nb; m] /\
    forall b k, 0 <= b < nb -> 0 <= k < m ->
      at2 a b k
      = Csum P (fun x =>
          Cmul (Cconj (at2 Psi x k)) (Cmul (at2 Q x b) (at2 w x 0))).
Proof.
  intros HPsi HQ Hw. unfold inner_product_spec.
  destruct (np_mul_column Q w P nb HQ Hw) as (qw & -> & Hqw & Hent).
  rewrite (np_H_2d Psi P m HPsi).
  cbn [mbind result_bind Py.bind].
  erewrite np_matmul_2d; [|reflexivity|exact Hqw].
  cbn [mbind result_bind Py.bind].
  erewrite np_T_2d; [|reflexivity].
  eexists. split; [reflexivity|]. split; [reflexivity|].
  intros b k Hb Hk. rewrite at2_mat by assumption.
  rewrite at2_mat by assumption.
  apply Csum_ext. intros x Hx.
  rewrite at2_mat by assumption.
  rewrite Hent by assumption. reflexivity.
Qed.

Lemma Cconj_real (e : C) : im e = 0%Qc -> Cconj e = e.
Proof.
  destruct e as [x y]. simpl. intros ->. reflexivity.
Qed.

(** On real-valued modes the two formulas agree; complex modes are what
    tells them apart. *)
Lemma inner_product_real_modes (Psi Q w : cndarray) (P m nb : Z) :
  cshape Psi = [P; m] -> cshape Q = [P; nb] -> cshape w = [P; 1] ->
  (forall x k, 0 <= x < P -> 0 <= k < m -> im (at2 Psi x k) = 0%Qc) ->
  exists a s,
    inner_product Psi Q w = Ok a /\ inner_product_spec Psi Q w = Ok s /\
    cshape a = cshape s /\
    forall b k, 0 <= b < nb -> 0 <= k < m -> at2 a b k = at2 s b k.
Proof.
  intros HPsi HQ Hw Hreal.
  destruct (inner_product_entries Psi Q w P m nb HPsi HQ Hw)
    as (a & Ha & Hsa & Hea).
  destruct (inner_product_spec_entries Psi Q w P m nb HPsi HQ Hw)
    as (s & Hs & Hss & Hes).
  exists a, s.
  split; [exact Ha|]. split; [exact Hs|]. split.
  - rewrite Hsa, Hss. reflexivity.
  - intros b k Hb Hk. rewrite Hea, Hes by assumption.
    apply Csum_ext. intros x Hx.
    rewrite Cconj_real by (apply Hreal; assumption). reflexivity.
Qed.


(** C1. Two blocks [1] and [i], one mode [i], unit weights: the source
    stores [(i*1, i*i) = (i, -1)]; with the conjugate transpose of the mode
    matrix the coefficients are [(-i*1, -i*i) = (-i, 1)]. *)
Theorem get_coefficients_omits_conjugate :
  (exists a,
     saved_coefficients Fixtures.obj_8 Fixtures.store_8 0 = Ok a
     /\ cshape a = [2; 1]
     /\ celems a = [mkC 0 1; mkC (-1) 0])
  /\ (exists a,
        inner_product Fixtures.Psi_8 Fixtures.Q_hat_8
          (of_real_array (weights (_config Fixtures.obj_8))) = Ok a
        /\ celems a = [mkC 0 1; mkC (-1) 0])
  /\ (exists s,
        inner_product_spec Fixtures.Psi_8 Fixtures.Q_hat_8
          (of_real_array (weights (_config Fixtures.obj_8))) = Ok s
        /\ cshape s = [2; 1]
        /\ celems s = [mkC 0 (-1); mkC 1 0]).
Proof.
  split; [|split].
  - eexists. split; [vm_compute; reflexivity|]. split; [reflexivity|].
    cbn [celems].
    repeat (f_equal; try (apply Qc_is_canon; reflexivity)).
  - eexists. split; [vm_compute; reflexivity|].
    cbn [celems].
    repeat (f_equal; try (apply Qc_is_canon; reflexivity)).
  - eexists. split; [vm_compute; reflexivity|]. split; [reflexivity|].
    cbn [celems].
    repeat (f_equal; try (apply Qc_is_canon; reflexivity)).
Qed.


End ProjectorFacts.

Module EmulatorFacts.
Import Py Resolver Init Complex Projector Emulator PyFacts ResolverFacts.

Lemma index_block_in_range (tensor : list cndarray) (i : nat) (x : cndarray) :
  tensor !! i = Some x -> index_block tensor (Z.of_nat i) = Ok x.
Proof.
  intros Hx. pose proof (lookup_lt_Some _ _ _ Hx) as Hlt.
  unfold index_block.
  destruct (Z.ltb_spec (Z.of_nat i) 0) as [Hneg|_]; [lia|].
  destruct (Z.leb_spec 0 (Z.of_nat i)) as [_|Hneg]; [|lia].
  destruct (Z.ltb_spec (Z.of_nat i) (Z.of_nat (length tensor))) as [_|Hge];
    [|lia].
  simpl. rewrite Nat2Z.id, Hx. reflexivity.
Qed.

(** The sample loop pairs every block with its successor, in order. *)
Lemma pair_loop_shift (tensor : list cndarray) (c s : nat)
    (ip op : list cndarray) :
  (s + c + 1 <= length tensor)%nat ->
  pair_loop tensor (map Z.of_nat (seq s c)) ip op
  = Ok (ip ++ take c (drop s tensor), op ++ take c (drop (S s) tensor)).
Proof.
  revert s ip op. induction c as [|c IH]; intros s ip op Hlen.
  - simpl. rewrite !app_nil_r. reflexivity.
  - cbn [seq map pair_loop].
    destruct (lookup_lt_is_Some_2 tensor s) as [x Hx]; [lia|].
    destruct (lookup_lt_is_Some_2 tensor (S s)) as [y Hy]; [lia|].
    rewrite (index_block_in_range tensor s x Hx).
    replace (Z.of_nat s + 1) with (Z.of_nat (S s)) by lia.
    rewrite (index_block_in_range tensor (S s) y Hy).
    cbn [mbind result_bind Py.bind].
    rewrite IH by lia.
    rewrite (drop_S tensor x s Hx), (drop_S tensor y (S s) Hy).
    cbn [take]. rewrite <- !app_assoc. reflexivity.
Qed.

Lemma slice_split {A : Type} (k : Z) (l : list A) :
  slice_to k l ++ slice_from k l = l.
Proof. unfold slice_to, slice_from. apply take_drop. Qed.

(** In ten blocks the split falls after the seventh pair: nine pairs, seven
    for training and two for testing, not six and three. *)
Lemma ten_blocks_split_7_2 :
  exists r,
    build_emulator Fixtures.obj_40 Fixtures.store_40 = Ok r
    /\ n_blocks (_config Fixtures.obj_40) = 10
    /\ length (training_data_ip r) = 7%nat
    /\ length (testing_data_ip r) = 2%nat
    /\ length (training_data_ip r) <> 6%nat
    /\ length (testing_data_ip r) <> 3%nat.
Proof.
  eexists. split; [vm_compute; reflexivity|].
  repeat split; try reflexivity; discriminate.
Qed.

(** C6 (as the code has it). From a tensor of at least [n_blocks] blocks the
    preparer builds exactly [n_blocks - 1] pairs, pair [sample] being
    [(tensor[sample], tensor[sample+1])]; the first [int(0.7*n_blocks)] pairs
    (a binary64 product) are the training pairs and the others the testing
    pairs, in order, none omitted or duplicated; for ten blocks that is nine
    pairs, seven for training and two for testing. *)
Theorem build_emulator_pairs (self : spod_obj) (st : store)
    (tensor : list cndarray) (num_train : Z) :
  2 <= n_blocks (_config self) ->
  emulator_prep_data self st = Ok tensor ->
  n_blocks (_config self) <= Z.of_nat (length tensor) ->
  num_train_blocks (n_blocks (_config self)) = Ok num_train ->
  let n := Z.to_nat (n_blocks (_config self)) in
  let inputs := take (n - 1) tensor in
  let outputs := take (n - 1) (drop 1 tensor) in
  exists r,
    build_emulator self st = Ok r
    /\ length inputs = (n - 1)%nat /\ length outputs = (n - 1)%nat
    /\ (forall sample, (sample < n - 1)%nat ->
          inputs !! sample = tensor !! sample
          /\ outputs !! sample = tensor !! S sample)
    /\ training_data_ip r = slice_to num_train inputs
    /\ training_data_op r = slice_to num_train outputs
    /\ testing_data_ip r = slice_from num_train inputs
    /\ testing_data_op r = slice_from num_train outputs
    /\ training_data_ip r ++ testing_data_ip r = inputs
    /\ training_data_op r ++ testing_data_op r = outputs
    /\ (n_blocks (_config self) = 10 ->
        num_train = 7
        /\ length (training_data_ip r) = 7%nat
        /\ length (training_data_op r) = 7%nat
        /\ length (testing_data_ip r) = 2%nat
        /\ length (testing_data_op r) = 2%nat).
Proof.
  intros Hnb Hprep Hlen Hk n inputs outputs.
  assert (length inputs = (n - 1)%nat) as Hli.
  { subst inputs. rewrite length_take. lia. }
  assert (length outputs = (n - 1)%nat) as Hlo.
  { subst outputs. rewrite length_take, length_drop. lia. }
  unfold build_emulator. rewrite Hprep. cbn [mbind result_bind Py.bind].
  unfold py_range.
  replace (Z.to_nat (n_blocks (_config self) - 1)) with (n - 1)%nat by lia.
  rewrite pair_loop_shift by lia.
  cbn [mbind result_bind Py.bind app]. rewrite Hk.
  cbn [mbind result_bind Py.bind]. rewrite drop_0.
  fold inputs. fold outputs.
  eexists. split; [reflexivity|].
  cbn [training_data_ip training_data_op testing_data_ip testing_data_op].
  split; [exact Hli|]. split; [exact Hlo|]. split.
  { intros sample Hs. subst inputs outputs. split.
    - apply lookup_take_lt. exact Hs.
    - rewrite lookup_take_lt by exact Hs. rewrite lookup_drop. reflexivity. }
  repeat (split; [reflexivity|]).
  split; [apply slice_split|]. split; [apply slice_split|].
  intros H10. rewrite H10 in Hk. vm_compute in Hk.
  inversion Hk; subst num_train.
  assert (n = 10%nat) as Hn by (subst n; rewrite H10; reflexivity).
  unfold slice_to, slice_from, slice_bound.
  rewrite !length_take, !length_drop, Hli, Hlo, Hn.
  simpl. repeat split; reflexivity.
Qed.

Lemma build_emulator_pairs_witness :
  exists r,
    build_emulator Fixtures.obj_40 Fixtures.store_40 = Ok r
    /\ length (training_data_ip r ++ testing_data_ip r) = 9%nat
    /\ length (training_data_ip r) = 7%nat
    /\ length (testing_data_ip r) = 2%nat.
Proof.
  destruct (emulator_prep_data Fixtures.obj_40 Fixtures.store_40)
    as [tensor|e] eqn:E; [|vm_compute in E; discriminate E].
  assert (length tensor = 10%nat) as Hlen.
  { vm_compute in E. inversion E. reflexivity. }
  destruct (build_emulator_pairs Fixtures.obj_40 Fixtures.store_40 tensor 7)
    as (r & Hr & Hli & _ & _ & _ & _ & _ & _ & Hcat & _ & H10).
  - simpl. lia.
  - exact E.
  - rewrite Hlen. simpl. lia.
  - vm_compute. reflexivity.
  - exists r. split; [exact Hr|].
    destruct (H10 eq_refl) as (_ & Ht & _ & Hs & _).
    rewrite Hcat, Hli. repeat split; assumption || reflexivity.
Defined.

(** Up to 89 blocks the binary64 product truncates to [floor(7*n/10)]; at
    90 blocks it is 62, one below. *)
Example num_train_blocks_small :
  forallb (fun n => match num_train_blocks n with
                    | Ok k => k =? 7 * n / 10
                    | Raise _ => false
                    end)
    (py_range 90) = true
  /\ num_train_blocks 90 = Ok 62.
Proof. split; vm_compute; reflexivity. Qed.

End EmulatorFacts.

(** * Further properties of the data handler and the long-time mean *)

Module HandlerFacts.
Import Py Resolver Access PyFacts ResolverFacts.

Lemma np_arange_cons (a : Z) (n : nat) :
  map (fun k => a + Z.of_nat k) (seq 0 (S n))
  = a :: map (fun k => (a + 1) + Z.of_nat k) (seq 0 n).
Proof.
  cbn [seq map]. f_equal; [lia|].
  rewrite <- seq_shift, map_map. apply map_ext. intros k. lia.
Qed.

Lemma take_frame_in_range (data : list frame) (i : Z) (f : frame) :
  0 <= i -> data !! Z.to_nat i = Some f -> take_frame data i = Ok f.
Proof.
  intros Hi Hf. pose proof (lookup_lt_Some _ _ _ Hf) as Hlt.
  unfold take_frame.
  destruct (Z.ltb_spec i 0) as [Hneg|_]; [lia|].
  destruct (Z.leb_spec 0 i) as [_|Hneg]; [|lia].
  destruct (Z.ltb_spec i (Z.of_nat (length data))) as [_|Hge]; [|lia].
  simpl. rewrite Hf. reflexivity.
Qed.

Lemma take_frames_consecutive (data : list frame) (n : nat) (a : Z) :
  0 <= a -> a + Z.of_nat n <= Z.of_nat (length data) ->
  take_frames data (map (fun k => a + Z.of_nat k) (seq 0 n))
  = Ok (take n (drop (Z.to_nat a) data)).
Proof.
  revert a. induction n as [|n IH]; intros a Ha Hlen.
  - reflexivity.
  - rewrite np_arange_cons. cbn [take_frames].
    destruct (lookup_lt_is_Some_2 data (Z.to_nat a)) as [f Hf]; [lia|].
    rewrite (take_frame_in_range data a f Ha Hf).
    cbn [mbind result_bind Py.bind].
    rewrite IH by lia. cbn [mbind result_bind Py.bind].
    rewrite (drop_S data f (Z.to_nat a) Hf). cbn [take].
    replace (Z.to_nat (a + 1)) with (S (Z.to_nat a)) by lia. reflexivity.
Qed.

(** X1. On a range inside the data the in-memory handler returns exactly the
    frames [t_0, ..., t_end - 1], in order; on [t_0 == t_end] it returns the
    one frame of index [t_0], never zero frames. *)
Theorem data_handler_slice (data : list frame) (t_0 t_end : Z)
    (vars : list string) :
  0 <= t_0 -> t_0 <= t_end ->
  (if t_0 =? t_end then t_0 < Z.of_nat (length data)
   else t_end <= Z.of_nat (length data)) ->
  let frames := if t_0 =? t_end then 1%nat else Z.to_nat (t_end - t_0) in
  data_handler data t_0 t_end vars
  = Ok (take frames (drop (Z.to_nat t_0) data))
  /\ length (take frames (drop (Z.to_nat t_0) data)) = frames.
Proof.
  intros H0 Hle Hin frames. unfold data_handler, np_arange. subst frames.
  destruct (Z.eqb_spec t_0 t_end) as [E|NE].
  - replace (t_0 + 1 - t_0) with 1 by lia.
    change (Z.to_nat 1) with 1%nat.
    rewrite take_frames_consecutive by lia.
    split; [reflexivity|]. rewrite length_take, length_drop. lia.
  - rewrite take_frames_consecutive by lia.
    split; [reflexivity|]. rewrite length_take, length_drop. lia.
Qed.

Lemma data_handler_slice_witness :
  data_handler [[1%Qc]; [2%Qc]; [Qc_of_Z 3]] 1 3 ["u"]
  = Ok [[2%Qc]; [Qc_of_Z 3]]
  /\ data_handler [[1%Qc]; [2%Qc]; [Qc_of_Z 3]] 2 2 ["u"]
     = Ok [[Qc_of_Z 3]].
Proof.
  split.
  - apply (data_handler_slice [[1%Qc]; [2%Qc]; [Qc_of_Z 3]] 1 3 ["u"]);
      simpl; lia.
  - apply (data_handler_slice [[1%Qc]; [2%Qc]; [Qc_of_Z 3]] 2 2 ["u"]);
      simpl; lia.
Defined.

Lemma take_frame_cases (data : list frame) (i : Z) :
  (exists f, take_frame data i = Ok f)
  \/ take_frame data i = Raise out_of_bounds.
Proof.
  unfold take_frame.
  destruct (_ && _); [destruct (data !! _) as [f|]|]; eauto.
Qed.

Lemma take_frame_past_end (data : list frame) (i : Z) :
  Z.of_nat (length data) <= i -> take_frame data i = Raise out_of_bounds.
Proof.
  intros Hi. unfold take_frame.
  destruct (Z.ltb_spec i 0) as [Hneg|_]; [lia|].
  destruct (Z.ltb_spec i (Z.of_nat (length data))) as [Hlt|_]; [lia|].
  rewrite andb_false_r. reflexivity.
Qed.

Lemma take_frames_past_end (data : list frame) (ti : list Z) :
  Exists (fun i => Z.of_nat (length data) <= i) ti ->
  take_frames data ti = Raise out_of_bounds.
Proof.
  induction ti as [|i ti IH]; intros Hex; inversion Hex; subst; simpl.
  - rewrite take_frame_past_end by assumption. reflexivity.
  - destruct (take_frame_cases data i) as [[f ->]| ->]; [|reflexivity].
    cbn [mbind result_bind Py.bind]. rewrite IH by assumption. reflexivity.
Qed.

(** X2. The handler never truncates: a range that starts at a valid index
    and reaches past the last frame raises [IndexError], as does a single
    sample at or past the end; a reversed range gives zero frames. *)
Theorem data_handler_out_of_range (data : list frame) (t_0 t_end : Z)
    (vars : list string) :
  (0 <= t_0 <= t_end -> Z.of_nat (length data) < t_end ->
   data_handler data t_0 t_end vars = Raise out_of_bounds)
  /\ (t_0 = t_end -> Z.of_nat (length data) <= t_0 ->
      data_handler data t_0 t_end vars = Raise out_of_bounds)
  /\ (t_end < t_0 -> data_handler data t_0 t_end vars = Ok []).
Proof.
  split; [|split].
  - intros H0 Hend. unfold data_handler.
    apply take_frames_past_end. apply Exists_exists.
    destruct (Z.eqb_spec t_0 t_end) as [E|NE].
    + exists t_0. split; [|lia].
      apply list_elem_of_In. unfold np_arange. apply in_map_iff.
      exists 0%nat. split; [lia|]. apply in_seq. lia.
    + exists (t_end - 1). split; [|lia].
      apply list_elem_of_In. unfold np_arange. apply in_map_iff.
      exists (Z.to_nat (t_end - 1 - t_0)). split; [lia|]. apply in_seq. lia.
  - intros E Hend. unfold data_handler.
    apply take_frames_past_end. apply Exists_exists.
    rewrite (proj2 (Z.eqb_eq _ _) E).
    exists t_0. split; [|lia].
    apply list_elem_of_In. unfold np_arange. apply in_map_iff.
    exists 0%nat. split; [lia|]. apply in_seq. lia.
  - intros Hrev. unfold data_handler.
    destruct (Z.eqb_spec t_0 t_end) as [E|_]; [lia|].
    unfold np_arange. replace (Z.to_nat (t_end - t_0)) with 0%nat by lia.
    reflexivity.
Qed.

Lemma data_handler_out_of_range_witness :
  data_handler [[1%Qc]; [2%Qc]] 1 3 ["u"] = Raise out_of_bounds
  /\ data_handler [[1%Qc]; [2%Qc]] 2 2 ["u"] = Raise out_of_bounds
  /\ data_handler [[1%Qc]; [2%Qc]] 2 1 ["u"] = Ok [].
Proof.
  destruct (data_handler_out_of_range [[1%Qc]; [2%Qc]] 1 3 ["u"])
    as (H1 & _ & _).
  destruct (data_handler_out_of_range [[1%Qc]; [2%Qc]] 2 2 ["u"])
    as (_ & H2 & _).
  destruct (data_handler_out_of_range [[1%Qc]; [2%Qc]] 2 1 ["u"])
    as (_ & _ & H3).
  split; [apply H1; simpl; lia|].
  split; [apply H2; [reflexivity | simpl; lia] | apply H3; lia].
Defined.

(** *** The chunked sum *)

Lemma field_add_assoc (a b c : frame) :
  field_add (field_add a b) c = field_add a (field_add b c).
Proof.
  unfold field_add. revert b c.
  induction a as [|x a IH]; intros [|y b] [|z c]; simpl; try reflexivity.
  rewrite IH, Qcplus_assoc. reflexivity.
Qed.

Lemma field_add_zeros (x : frame) :
  field_add x (repeat 0%Qc (length x)) = x.
Proof.
  unfold field_add. induction x as [|a x IH]; simpl; [reflexivity|].
  rewrite IH. f_equal. ring.
Qed.

Lemma length_field_add (a b : frame) (len : nat) :
  length a = len -> length b = len -> length (field_add a b) = len.
Proof.
  intros Ha Hb. unfold field_add. rewrite length_zip_with. lia.
Qed.

Lemma fold_field_add_shift (fs : list frame) (x y : frame) :
  fold_left field_add fs (field_add x y)
  = field_add x (fold_left field_add fs y).
Proof.
  revert y. induction fs as [|f fs IH]; intros y; simpl; [reflexivity|].
  rewrite field_add_assoc. apply IH.
Qed.

(** Adding the sum of a chunk to the running sum is summing the chunk onto
    the running sum. *)
Lemma field_add_np_sum (x : frame) (fs : list frame) :
  field_add x (np_sum_axis0 (length x) fs) = fold_left field_add fs x.
Proof.
  unfold np_sum_axis0. rewrite <- fold_field_add_shift, field_add_zeros.
  reflexivity.
Qed.

Lemma length_fold_field_add (fs : list frame) (x : frame) (len : nat) :
  length x = len -> Forall (fun f => length f = len) fs ->
  length (fold_left field_add fs x) = len.
Proof.
  intros Hx Hfs. revert x Hx.
  induction Hfs as [|f fs Hf _ IH]; intros x Hx; simpl; [exact Hx|].
  apply IH. apply length_field_add; assumption.
Qed.

Lemma data_handler_chunk (data : list frame) (lb ub : Z)
    (vars : list string) :
  0 <= lb -> lb < ub -> ub <= Z.of_nat (length data) ->
  data_handler data lb ub vars
  = Ok (take (Z.to_nat (ub - lb)) (drop (Z.to_nat lb) data)).
Proof.
  intros H0 Hlt Hub. unfold data_handler, np_arange.
  destruct (Z.eqb_spec lb ub) as [E|_]; [lia|].
  apply take_frames_consecutive; lia.
Qed.

Lemma longtime_loop_sum (self : spod_self) (sb len c k : nat) (x : frame) :
  _data_handler self = data_handler ->
  (0 < sb)%nat ->
  Forall (fun f => length f = len) (_data self) ->
  length x = len ->
  ((k + c) * sb <= length (_data self))%nat ->
  longtime_loop self (Z.of_nat sb) len (map Z.of_nat (seq k c)) x
  = Ok (fold_left field_add (take (c * sb) (drop (k * sb) (_data self))) x).
Proof.
  intros Hh Hsb Hwf. revert k x.
  induction c as [|c IH]; intros k x Hx Hlen; [reflexivity|].
  cbn [seq map longtime_loop]. rewrite Hh.
  rewrite data_handler_chunk by nia.
  cbn [mbind result_bind Py.bind].
  replace (Z.to_nat (Z.of_nat k * Z.of_nat sb + Z.of_nat sb
                     - Z.of_nat k * Z.of_nat sb)) with sb by lia.
  replace (Z.to_nat (Z.of_nat k * Z.of_nat sb)) with (k * sb)%nat by lia.
  pose proof (field_add_np_sum x
                (take sb (drop (k * sb) (_data self)))) as E.
  rewrite Hx in E. rewrite E. clear E.
  rewrite IH.
  - rewrite <- fold_left_app. f_equal.
    replace (S k * sb)%nat with (k * sb + sb)%nat by lia.
    rewrite <- drop_drop, take_take_drop. f_equal; lia.
  - apply length_fold_field_add; [exact Hx|].
    apply Forall_take, Forall_drop. exact Hwf.
  - lia.
Qed.

(** X3. When [nt] is not a multiple of [n_blocks], the chunked summation
    visits every one of the first [nt] snapshots exactly once: the long-time
    mean is their sum divided by [nt], whatever the data. *)
Theorem longtime_mean_is_mean (self : spod_self) (n_blocks : Z) :
  _data_handler self = data_handler ->
  Forall (fun f => length f = Z.to_nat (nx self * nv self)) (_data self) ->
  nt self <= Z.of_nat (length (_data self)) ->
  0 < n_blocks <= nt self ->
  nt self mod n_blocks <> 0 ->
  longtime_mean self n_blocks
  = Ok {| shape := [nx self * nv self];
          elems := field_div
                     (np_sum_axis0 (Z.to_nat (nx self * nv self))
                        (take (Z.to_nat (nt self)) (_data self)))
                     (Qc_of_Z (nt self)) |}.
Proof.
  intros Hh Hwf Hn Hb Hres. unfold longtime_mean.
  set (len := Z.to_nat (nx self * nv self)) in *.
  set (sb := nt self / n_blocks).
  set (res := nt self mod n_blocks) in *.
  assert (nt self = n_blocks * sb + res) as Hsplit
    by (apply Z.div_mod; lia).
  assert (0 <= res < n_blocks) as Hrb by (apply Z.mod_pos_bound; lia).
  assert (0 < sb) as Hsb by (apply Z.div_str_pos; lia).
  unfold py_range. rewrite <- (Z2Nat.id sb) at 1 by lia.
  rewrite (longtime_loop_sum self (Z.to_nat sb) len (Z.to_nat n_blocks) 0).
  2: exact Hh. 2: lia. 2: exact Hwf. 2: apply repeat_length. 2: nia.
  cbn [mbind result_bind Py.bind]. rewrite Hh.
  rewrite data_handler_chunk by lia.
  cbn [mbind result_bind Py.bind].
  rewrite drop_0.
  assert (length (fold_left field_add
            (take (Z.to_nat n_blocks * Z.to_nat sb) (_data self))
            (repeat 0%Qc len)) = len) as Hlen.
  { apply length_fold_field_add; [apply repeat_length|].
    apply Forall_take. exact Hwf. }
  match goal with
  | |- context [field_add ?x (np_sum_axis0 len ?fs)] =>
      pose proof (field_add_np_sum x fs) as E
  end.
  rewrite Hlen in E. rewrite E, <- fold_left_app. clear E.
  do 3 f_equal. unfold np_sum_axis0. f_equal.
  replace (Z.to_nat (nt self - res))
    with (Z.to_nat n_blocks * Z.to_nat sb)%nat by nia.
  rewrite take_take_drop. f_equal; nia.
Qed.

Lemma longtime_mean_is_mean_witness :
  exists m,
    longtime_mean Runs.self_ramp 2 = Ok m
    /\ shape m = [1] /\ elems m = [Qc_of_Z 5].
Proof.
  eexists. split.
  - apply (longtime_mean_is_mean Runs.self_ramp 2).
    + reflexivity.
    + repeat constructor.
    + simpl. lia.
    + simpl. lia.
    + simpl. discriminate.
  - split; [reflexivity|].
    cbn [elems]. vm_compute.
    repeat (f_equal; try (apply Qc_is_canon; reflexivity)).
Defined.


End HandlerFacts.

(** * Further properties of the parameter resolver *)

Module ResolverMoreFacts.
Import Py Resolver PyFacts ResolverFacts.

(** What a returning run went through. *)
Lemma parse_parameters_inv (self : spod_self) (isrealx : bool)
    (params : params) (cfg : spectral_config) (warned : list string) :
  parse_parameters self isrealx params = Ok (cfg, warned) ->
  exists nd wv wn wts wtn ov xm mn fr,
    resolve_window self (p_n_FFT params) = Ok (nd, wv, wn)
    /\ resolve_weights self (p_weights params) = Ok (wts, wtn)
    /\ resolve_overlap nd (p_n_overlap params) = Ok ov
    /\ (Qc_of_Z 4 <= nd)%Qc
    /\ 2 <= block_count (nt self) nd ov
    /\ resolve_mean self (block_count (nt self) nd ov) (p_mean params)
       = Ok (xm, mn, warned)
    /\ freq_axis isrealx (py_int nd) (p_dt params) = Ok fr
    /\ cfg = {| window := wv; weights := wts; n_overlap := py_int ov;
                n_DFT := py_int nd;
                n_blocks := block_count (nt self) nd ov;
                x_mean := xm; mean_name := mn; freq := fr;
                n_freq := Z.of_nat (length fr);
                window_name := wn; weights_name := wtn |}.
Proof.
  intros H. unfold parse_parameters in H.
  apply bind_Ok in H as ([[nd wv] wn] & Hw & H).
  apply bind_Ok in H as ([wts wtn] & Hwt & H).
  apply bind_Ok in H as (ov & Hov & H).
  destruct (bool_decide (nd < Qc_of_Z 4)%Qc || _) eqn:Hchk;
    [discriminate H|].
  apply orb_false_elim in Hchk as [Hnd Hnb].
  apply bool_decide_eq_false in Hnd. apply Qcnot_lt_le in Hnd.
  apply Z.ltb_ge in Hnb.
  apply bind_Ok in H as ([[xm mn] wl] & Hm & H).
  apply bind_Ok in H as (fr & Hfr & H).
  inversion H; subst cfg warned; clear H.
  exists nd, wv, wn, wts, wtn, ov, xm, mn, fr.
  repeat split; assumption.
Qed.

(** X4. With an integer window length [n] and an integer overlap [o], a
    returning run has [o < n], and its blocks tile the data: the last of the
    [n_blocks] blocks, which starts at [(n_blocks-1)*(n-o)], ends inside the
    [nt] snapshots, and one more block would not fit. *)
Theorem blocks_fit_in_data (self : spod_self) (isrealx : bool)
    (params : params) (n o : Z) (cfg : spectral_config)
    (warned : list string) :
  p_n_FFT params = WInt n ->
  p_n_overlap params = ONum (Qc_of_Z o) ->
  parse_parameters self isrealx params = Ok (cfg, warned) ->
  n_DFT cfg = n /\ n_overlap cfg = o /\ o < n
  /\ (n_blocks cfg - 1) * (n - o) + n <= nt self
  /\ nt self < n_blocks cfg * (n - o) + n.
Proof.
  intros HF HO H.
  apply parse_parameters_inv in H
    as (nd & wv & wn & wts & wtn & ov & xm & mn & fr
        & Hw & _ & Hov & Hnd & Hnb & _ & _ & ->).
  rewrite HF in Hw. simpl in Hw. inversion Hw; subst nd wv wn; clear Hw.
  rewrite HO in Hov. simpl in Hov.
  destruct (bool_decide _) eqn:Hchk; [discriminate Hov|].
  inversion Hov; subst ov; clear Hov.
  apply bool_decide_eq_false in Hchk. apply Qcnot_lt_le in Hchk.
  rewrite <- Z2Qc_inj_1, <- Z2Qc_inj_sub in Hchk.
  apply Z2Qc_inj_le in Hchk. apply Z2Qc_inj_le in Hnd.
  cbn [n_DFT n_overlap n_blocks]. rewrite !py_int_of_Z.
  rewrite block_count_integral in *.
  pose proof (Z.div_mod (nt self - o) (n - o) ltac:(lia)) as Hdm.
  pose proof (Z.mod_pos_bound (nt self - o) (n - o) ltac:(lia)) as Hmb.
  repeat split; try reflexivity; nia.
Qed.

Lemma blocks_fit_in_data_witness :
  exists cfg warned,
    parse_parameters Fixtures.self_8 true Runs.params_overlap_1
    = Ok (cfg, warned)
    /\ n_blocks cfg = 2 /\ (n_blocks cfg - 1) * (4 - 1) + 4 <= 8
    /\ 8 < n_blocks cfg * (4 - 1) + 4.
Proof.
  destruct (parse_parameters Fixtures.self_8 true Runs.params_overlap_1)
    as [[cfg warned]|e] eqn:E; [|vm_compute in E; discriminate E].
  exists cfg, warned. split; [reflexivity|].
  destruct (blocks_fit_in_data Fixtures.self_8 true Runs.params_overlap_1
              4 1 cfg warned eq_refl eq_refl E)
    as (_ & _ & _ & Hfit & Hmax).
  simpl in Hfit, Hmax. repeat split; [lia | exact Hfit | exact Hmax].
Defined.

(** *** The axis of a returning run *)

Lemma n_DFT_at_least_4 (nd : Qc) : (Qc_of_Z 4 <= nd)%Qc -> 4 <= py_int nd.
Proof.
  intros Hnd.
  assert (0 <= nd)%Qc as H0 by (eapply Qcle_trans; [|exact Hnd]; discriminate).
  rewrite (py_int_nonneg nd H0).
  rewrite <- (Qcfloor_of_Z 4). apply Qcfloor_mono. exact Hnd.
Qed.

Lemma Qcinv_pos (d : Qc) : (0 < d)%Qc -> (0 < / d)%Qc.
Proof.
  intros Hd. unfold Qclt in *.
  assert (this (/ d)%Qc == / this d) as E
    by (unfold Qcinv; cbn [this Q2Qc]; apply Qred_correct).
  rewrite E. apply Qinv_lt_0_compat. exact Hd.
Qed.

(** X5. A returning one-sided run has [ceil(n_DFT/2) + 1] frequencies,
    [freq[k] = k/(n_DFT*dt)], starting at zero and, for a positive time
    step, strictly increasing. *)
Theorem one_sided_axis (self : spod_self) (params : params)
    (cfg : spectral_config) (warned : list string) :
  parse_parameters self true params = Ok (cfg, warned) ->
  n_freq cfg = (n_DFT cfg + 1) / 2 + 1
  /\ 3 <= n_freq cfg
  /\ (forall k, 0 <= k < n_freq cfg ->
        freq cfg !! Z.to_nat k
        = Some (Qc_of_Z k / (Qc_of_Z (n_DFT cfg) * p_dt params))%Qc)
  /\ freq cfg !! 0%nat = Some 0%Qc
  /\ ((0 < p_dt params)%Qc ->
      forall j k fj fk, 0 <= j -> j < k -> k < n_freq cfg ->
        freq cfg !! Z.to_nat j = Some fj ->
        freq cfg !! Z.to_nat k = Some fk ->
        (fj < fk)%Qc).
Proof.
  intros H.
  apply parse_parameters_inv in H
    as (nd & wv & wn & wts & wtn & ov & xm & mn & fr
        & _ & _ & _ & Hnd & _ & _ & Hfr & ->).
  cbn [n_DFT n_freq freq].
  pose proof (n_DFT_at_least_4 nd Hnd) as Hn4.
  set (n := py_int nd) in *.
  rewrite freq_axis_one_sided in Hfr. inversion Hfr; subst fr; clear Hfr.
  assert (Z.of_nat (length
            (map (fun k => (Qc_of_Z k / (Qc_of_Z n * p_dt params))%Qc)
               (py_range ((n + 1) / 2 + 1)))) = (n + 1) / 2 + 1) as Hlen.
  { rewrite length_map. apply py_range_length.
    Z.div_mod_to_equations. lia. }
  rewrite Hlen.
  assert (forall k, 0 <= k < (n + 1) / 2 + 1 ->
            map (fun k => (Qc_of_Z k / (Qc_of_Z n * p_dt params))%Qc)
              (py_range ((n + 1) / 2 + 1)) !! Z.to_nat k
            = Some (Qc_of_Z k / (Qc_of_Z n * p_dt params))%Qc) as Hent.
  { intros k Hk. rewrite lookup_map, lookup_py_range by exact Hk.
    reflexivity. }
  split; [reflexivity|].
  split; [Z.div_mod_to_equations; lia|].
  split; [exact Hent|]. split.
  - change 0%nat with (Z.to_nat 0).
    rewrite Hent by (Z.div_mod_to_equations; lia).
    f_equal. rewrite Z2Qc_inj_0. unfold Qcdiv. ring.
  - intros Hdt j k fj fk Hj Hjk Hk Hfj Hfk.
    rewrite Hent in Hfj by lia. rewrite Hent in Hfk by lia.
    inversion Hfj; subst fj. inversion Hfk; subst fk.
    unfold Qcdiv. apply Qcmult_lt_compat_r.
    + apply Qcinv_pos. apply Qcmult_pos_pos; [|exact Hdt].
      rewrite <- Z2Qc_inj_0. apply (proj1 (Z2Qc_inj_lt 0 n)). lia.
    + apply (proj1 (Z2Qc_inj_lt j k)). exact Hjk.
Qed.

Lemma one_sided_axis_witness :
  exists cfg warned,
    parse_parameters Fixtures.self_20 true Fixtures.params_blockwise
    = Ok (cfg, warned)
    /\ n_freq cfg = 5
    /\ freq cfg !! 0%nat = Some 0%Qc.
Proof.
  destruct (parse_parameters Fixtures.self_20 true Fixtures.params_blockwise)
    as [[cfg warned]|e] eqn:E; [|vm_compute in E; discriminate E].
  exists cfg, warned. split; [reflexivity|].
  destruct (one_sided_axis Fixtures.self_20 Fixtures.params_blockwise
              cfg warned E) as (Hn & _ & _ & H0 & _).
  split; [|exact H0].
  rewrite Hn.
  destruct (parse_parameters_inv _ _ _ _ _ E)
    as (nd & wv & wn & wts & wtn & ov & xm & mn & fr
        & Hw & _ & _ & _ & _ & _ & _ & ->).
  vm_compute in Hw. inversion Hw; subst nd. reflexivity.
Defined.

(** X6. A returning two-sided run has an even window length and [n_DFT]
    frequencies: [k/(n_DFT*dt)] up to and including the Nyquist bin
    [k = n_DFT/2], and the negative frequencies [(k - n_DFT)/(n_DFT*dt)]
    after it. *)
Theorem two_sided_axis (self : spod_self) (params : params)
    (cfg : spectral_config) (warned : list string) :
  p_dt params <> 0%Qc ->
  parse_parameters self false params = Ok (cfg, warned) ->
  n_DFT cfg mod 2 = 0
  /\ n_freq cfg = n_DFT cfg
  /\ forall k, 0 <= k < n_DFT cfg ->
       freq cfg !! Z.to_nat k
       = Some (if k <=? n_DFT cfg / 2
               then (Qc_of_Z k / (Qc_of_Z (n_DFT cfg) * p_dt params))%Qc
               else (Qc_of_Z (k - n_DFT cfg)
                     / (Qc_of_Z (n_DFT cfg) * p_dt params))%Qc).
Proof.
  intros Hdt H.
  apply parse_parameters_inv in H
    as (nd & wv & wn & wts & wtn & ov & xm & mn & fr
        & _ & _ & _ & Hnd & _ & _ & Hfr & ->).
  cbn [n_DFT n_freq freq].
  pose proof (n_DFT_at_least_4 nd Hnd) as Hn4.
  set (n := py_int nd) in *.
  destruct (Z.eq_dec (n mod 2) 0) as [Hev|Hodd].
  2:{ destruct (freq_axis_two_sided_odd n (p_dt params) Hodd) as [msg E].
      rewrite E in Hfr. discriminate Hfr. }
  rewrite freq_axis_two_sided_even in Hfr by lia.
  inversion Hfr; subst fr; clear Hfr.
  split; [exact Hev|]. split.
  { rewrite length_map. apply py_range_length. lia. }
  intros k Hk. rewrite lookup_map, lookup_py_range by exact Hk. simpl.
  f_equal.
  destruct (Z.ltb_spec k (n / 2 + 1)) as [Hlt|Hge];
    destruct (Z.leb_spec k (n / 2)) as [Hle|Hgt]; try lia.
  - reflexivity.
  - rewrite Z2Qc_inj_sub. field. split; [exact Hdt|].
    rewrite <- Z2Qc_inj_0. intros E. apply Z2Qc_inj in E. lia.
Qed.

Lemma two_sided_axis_witness :
  exists cfg warned,
    parse_parameters Fixtures.self_20 false Runs.params_two_sided
    = Ok (cfg, warned)
    /\ n_freq cfg = n_DFT cfg /\ n_DFT cfg mod 2 = 0.
Proof.
  destruct (parse_parameters Fixtures.self_20 false Runs.params_two_sided)
    as [[cfg warned]|e] eqn:E; [|vm_compute in E; discriminate E].
  exists cfg, warned. split; [reflexivity|].
  assert (p_dt Runs.params_two_sided <> 0%Qc) as Hdt
    by (intros Hz; vm_compute in Hz; discriminate Hz).
  destruct (two_sided_axis Fixtures.self_20 Runs.params_two_sided cfg warned
              Hdt E) as (Hev & Hn & _).
  split; assumption.
Defined.

(** *** Default window and overlap *)

Lemma default_window_length (nt : Z) :
  10 <= nt ->
  pow2 (floor_log2 (Qc_of_Z nt / Qc_of_Z 10)%Qc)
  = Qc_of_Z (2 ^ Z.log2 (nt / 10)).
Proof.
  intros Hnt. unfold floor_log2.
  rewrite bool_decide_eq_true_2.
  - rewrite Qcfloor_div_Z. unfold pow2.
    destruct (Z.leb_spec 0 (Z.log2 (nt / 10))) as [_|Hneg]; [reflexivity|].
    pose proof (Z.log2_nonneg (nt / 10)). lia.
  - unfold Qcle. rewrite this_Qcdiv_Z.
    apply Qle_shift_div_l; [reflexivity|].
    change (this 1%Qc) with (inject_Z 1).
    rewrite <- inject_Z_mult, <- Zle_Qle. lia.
Qed.

Lemma default_window_small :
  forallb (fun nt =>
      bool_decide
        ((if nt =? 0 then 0%Qc
          else pow2 (floor_log2 (Qc_of_Z nt / Qc_of_Z 10)%Qc))
         < Qc_of_Z 4)%Qc)
    (py_range 40) = true.
Proof. vm_compute. reflexivity. Qed.

Lemma small_window_raises (self : spod_self) (isrealx : bool)
    (params : params) (nd : Qc) (wv : window_val) (wn : string) :
  resolve_window self (p_n_FFT params) = Ok (nd, wv, wn) ->
  (nd < Qc_of_Z 4)%Qc ->
  is_ValueError (parse_parameters self isrealx params).
Proof.
  intros Hw Hlt. unfold parse_parameters. rewrite Hw. simpl.
  destruct (resolve_weights self (p_weights params)) as [[wts wtn]|e] eqn:Hwt.
  2:{ apply resolve_weights_error in Hwt as [msg ->]. exact I. }
  simpl.
  destruct (resolve_overlap nd (p_n_overlap params)) as [ov|e] eqn:Hov.
  2:{ apply resolve_overlap_error in Hov as [msg ->]. exact I. }
  simpl. rewrite (bool_decide_eq_true_2 _ Hlt). exact I.
Qed.

(** X7. With [n_FFT = 'default'] and [n_overlap = 'default'] (in any letter
    case), fewer than 40 snapshots always end in [ValueError]; a returning
    run has the power of two [n_DFT = 2^floor(log2(nt/10))], which lies
    between [nt/20] and [nt/10], half of it as overlap, and
    [nt div (n_DFT/2) - 1 >= 19] blocks. *)
Theorem default_window_and_overlap (self : spod_self) (isrealx : bool)
    (params : params) (s s' : string) :
  p_n_FFT params = WStr s -> lower s = "default" ->
  p_n_overlap params = OStr s' -> lower s' = "default" ->
  (nt self < 40 -> is_ValueError (parse_parameters self isrealx params))
  /\ (forall cfg warned,
        parse_parameters self isrealx params = Ok (cfg, warned) ->
        40 <= nt self
        /\ n_DFT cfg = 2 ^ Z.log2 (nt self / 10)
        /\ n_DFT cfg * 10 <= nt self < n_DFT cfg * 20
        /\ n_overlap cfg = n_DFT cfg / 2
        /\ n_blocks cfg = nt self / (n_DFT cfg / 2) - 1
        /\ 19 <= n_blocks cfg).
Proof.
  intros HF Hs HO Hs'.
  assert (nt self < 40 ->
          is_ValueError (parse_parameters self isrealx params)) as Hsmall.
  { intros Hlt.
    destruct (Z.ltb_spec (nt self) 0) as [Hneg|Hpos].
    - unfold parse_parameters. rewrite HF. unfold resolve_window.
      rewrite (bool_decide_eq_true_2 _ Hs).
      rewrite (proj2 (Z.ltb_lt _ _) Hneg). exact I.
    - eapply small_window_raises.
      + rewrite HF. unfold resolve_window.
        rewrite (bool_decide_eq_true_2 _ Hs).
        rewrite (proj2 (Z.ltb_ge _ _) Hpos). reflexivity.
      + pose proof default_window_small as Hall.
        rewrite forallb_forall in Hall.
        specialize (Hall (nt self)
                      (proj2 (py_range_In 40 (nt self)) ltac:(lia))).
        apply bool_decide_eq_true in Hall. exact Hall. }
  split; [exact Hsmall|].
  intros cfg warned H.
  assert (40 <= nt self) as Hnt.
  { destruct (Z.ltb_spec (nt self) 40) as [Hlt|Hge]; [|exact Hge].
    specialize (Hsmall Hlt). rewrite H in Hsmall. destruct Hsmall. }
  apply parse_parameters_inv in H
    as (nd & wv & wn & wts & wtn & ov & xm & mn & fr
        & Hw & _ & Hov & _ & _ & _ & _ & ->).
  rewrite HF in Hw. unfold resolve_window in Hw.
  rewrite (bool_decide_eq_true_2 _ Hs) in Hw.
  destruct (Z.ltb_spec (nt self) 0) as [Hneg|_]; [lia|].
  destruct (Z.eqb_spec (nt self) 0) as [E0|_]; [lia|].
  rewrite default_window_length in Hw by lia.
  inversion Hw; subst nd wv wn; clear Hw.
  rewrite HO in Hov. unfold resolve_overlap in Hov.
  rewrite (bool_decide_eq_true_2 _ Hs') in Hov.
  rewrite <- Z2Qc_inj_2, Qcfloor_div_Z in Hov.
  inversion Hov; subst ov; clear Hov.
  cbn [n_DFT n_overlap n_blocks]. rewrite !py_int_of_Z.
  rewrite block_count_integral.
  set (L := Z.log2 (nt self / 10)).
  assert (4 <= nt self / 10) as Hq by (Z.div_mod_to_equations; lia).
  assert (2 <= L) as HL.
  { apply Z.log2_le_pow2; [lia|]. exact Hq. }
  pose proof (Z.log2_spec (nt self / 10) ltac:(lia)) as [Hlo Hhi].
  fold L in Hlo, Hhi.
  assert (2 ^ L = 2 * 2 ^ (L - 1)) as HN.
  { rewrite <- Z.pow_succ_r by lia. f_equal. lia. }
  assert (2 ^ Z.succ L = 2 * 2 ^ L) as HN2 by (apply Z.pow_succ_r; lia).
  assert (0 < 2 ^ (L - 1)) as Hh by (apply Z.pow_pos_nonneg; lia).
  set (h := 2 ^ (L - 1)) in *.
  assert (2 ^ L / 2 = h) as Hhalf.
  { rewrite HN. rewrite Z.mul_comm. apply Z.div_mul. lia. }
  rewrite Hhalf.
  assert (2 ^ L * 10 <= nt self < 2 ^ L * 20) as Hbounds.
  { Z.div_mod_to_equations. lia. }
  assert ((nt self - h) / (2 ^ L - h) = nt self / h - 1) as Hblocks.
  { replace (2 ^ L - h) with h by lia.
    replace (nt self - h) with (nt self + (-1) * h) by lia.
    rewrite Z.div_add by lia. lia. }
  rewrite Hblocks.
  assert (20 <= nt self / h) as H20.
  { apply Z.div_le_lower_bound; lia. }
  repeat split; try reflexivity; lia.
Qed.

Lemma default_window_and_overlap_witness :
  is_ValueError
    (parse_parameters Fixtures.self_20 true Runs.params_defaults)
  /\ exists cfg warned,
       parse_parameters Runs.self_100 true Runs.params_defaults
       = Ok (cfg, warned)
       /\ n_DFT cfg = 8 /\ n_overlap cfg = 4 /\ n_blocks cfg = 24.
Proof.
  split.
  - apply (proj1 (default_window_and_overlap Fixtures.self_20 true
                    Runs.params_defaults "Default" "DEFAULT"
                    eq_refl eq_refl eq_refl eq_refl)).
    simpl. lia.
  - destruct (parse_parameters Runs.self_100 true Runs.params_defaults)
      as [[cfg warned]|e] eqn:E; [|vm_compute in E; discriminate E].
    exists cfg, warned. split; [reflexivity|].
    destruct (proj2 (default_window_and_overlap Runs.self_100 true
                       Runs.params_defaults "Default" "DEFAULT"
                       eq_refl eq_refl eq_refl eq_refl) cfg warned E)
      as (_ & Hn & _ & Ho & Hb & _).
    rewrite Hb, Ho, Hn. repeat split; reflexivity.
Defined.


(** *** [_nextpow2] *)

(** X8. For [a <> 0], [_nextpow2(a)] is the least [p >= 1] with
    [abs(a) <= 2^(p-1)], one more than the exponent of the next power of
    two; hence [2^p >= 2*abs(a)], and the test
    [window.size == 2**_nextpow2(window.size)] of the resolver never
    succeeds, whatever the size. *)
Theorem nextpow2_overshoots :
  (forall a, a <> 0 ->
     1 <= _nextpow2 a
     /\ Z.abs a <= 2 ^ (_nextpow2 a - 1)
     /\ (forall q, 1 <= q < _nextpow2 a -> 2 ^ (q - 1) < Z.abs a)
     /\ 2 * Z.abs a <= 2 ^ _nextpow2 a)
  /\ (forall a, (a =? 2 ^ _nextpow2 a) = false).
Proof.
  assert (forall a, a <> 0 ->
     1 <= _nextpow2 a
     /\ Z.abs a <= 2 ^ (_nextpow2 a - 1)
     /\ (forall q, 1 <= q < _nextpow2 a -> 2 ^ (q - 1) < Z.abs a)
     /\ 2 * Z.abs a <= 2 ^ _nextpow2 a) as Hspec.
  { intros a Ha.
    destruct (nextpow2_spec a Ha) as (H1 & H2 & H3).
    split; [exact H1|]. split; [exact H2|]. split.
    - intros q Hq.
      apply Z.le_lt_trans with (2 ^ (_nextpow2 a - 2)).
      + apply Z.pow_le_mono_r; lia.
      + apply H3. lia.
    - replace (_nextpow2 a) with (Z.succ (_nextpow2 a - 1)) at 1 by lia.
      rewrite Z.pow_succ_r by lia. lia. }
  split; [exact Hspec|].
  intros a. apply Z.eqb_neq.
  destruct (Z.eq_dec a 0) as [->|Ha].
  - vm_compute. discriminate.
  - destruct (Hspec a Ha) as (_ & _ & _ & H4). lia.
Qed.

Lemma nextpow2_overshoots_witness :
  _nextpow2 8 = 4 /\ 2 * Z.abs 8 <= 2 ^ _nextpow2 8
  /\ (8 =? 2 ^ _nextpow2 8) = false.
Proof.
  destruct nextpow2_overshoots as [Hspec Hne].
  destruct (Hspec 8 ltac:(lia)) as (_ & _ & _ & H4).
  split; [reflexivity|]. split; [exact H4 | apply Hne].
Defined.


End ResolverMoreFacts.

(** * Further properties of the cache probe *)

Module CacheMoreFacts.
Import Py Cache PyFacts.

Lemma all_freq_full (n_freq : Z) (saveDir : string) (fs : gset string)
    (iBlk : Z) :
  (all_freq_exist n_freq saveDir fs iBlk =? n_freq) = true
  <-> 0 <= n_freq
      /\ forall iFreq, 0 <= iFreq < n_freq ->
           fft_block_file saveDir iBlk iFreq ∈ fs.
Proof.
  unfold all_freq_exist.
  destruct (Z.ltb_spec n_freq 0) as [Hneg|Hpos].
  - split; [|intros [H _]; lia].
    intros H. apply Z.eqb_eq in H.
    pose proof (count_loop_bounds
      (fun iFreq => path_exists fs (fft_block_file saveDir iBlk iFreq))
      (py_range n_freq)). lia.
  - rewrite count_loop_range_full by lia. split.
    + intros H. split; [lia|]. intros iFreq Hf.
      specialize (H iFreq Hf). unfold path_exists in H.
      apply bool_decide_eq_true in H. exact H.
    + intros [_ H] iFreq Hf. unfold path_exists.
      apply bool_decide_eq_true. apply H. exact Hf.
Qed.

(** When the probe answers [true]. *)
Lemma are_blocks_present_true (n_blocks n_freq : Z) (saveDir : string)
    (fs : gset string) :
  _are_blocks_present n_blocks n_freq saveDir fs = true
  <-> 0 <= n_blocks
      /\ (n_blocks = 0
          \/ (0 <= n_freq
              /\ forall iBlk iFreq,
                   0 <= iBlk < n_blocks -> 0 <= iFreq < n_freq ->
                   fft_block_file saveDir iBlk iFreq ∈ fs)).
Proof.
  unfold _are_blocks_present.
  destruct (Z.ltb_spec n_blocks 0) as [Hneg|Hpos].
  - split; [|intros [H _]; lia].
    intros H. apply Z.eqb_eq in H.
    pose proof (count_loop_bounds
      (fun iBlk => all_freq_exist n_freq saveDir fs iBlk =? n_freq)
      (py_range n_blocks)). lia.
  - rewrite count_loop_range_full by lia. split.
    + intros H. split; [lia|].
      destruct (Z.eq_dec n_blocks 0) as [E|NE]; [left; exact E|right].
      pose proof (proj1 (all_freq_full n_freq saveDir fs 0)
                    (H 0 ltac:(lia))) as [Hf _].
      split; [exact Hf|]. intros iBlk iFreq HB HF.
      apply (proj1 (all_freq_full n_freq saveDir fs iBlk) (H iBlk HB)).
      exact HF.
    + intros [_ [E|[Hf H]]] iBlk HB; [lia|].
      apply all_freq_full. split; [exact Hf|].
      intros iFreq HF. apply H; assumption.
Qed.

(** X9. The answer of the probe depends only on the required files and is
    monotone in the directory: files added never turn [True] into [False],
    and two directories that agree on every
    [fft_block{iBlk:04d}_freq{iFreq:04d}.npy] in range get the same
    answer. *)
Theorem are_blocks_present_monotone (n_blocks n_freq : Z) (saveDir : string)
    (fs fs' : gset string) :
  (fs ⊆ fs' ->
   _are_blocks_present n_blocks n_freq saveDir fs = true ->
   _are_blocks_present n_blocks n_freq saveDir fs' = true)
  /\ ((forall iBlk iFreq, 0 <= iBlk < n_blocks -> 0 <= iFreq < n_freq ->
         (fft_block_file saveDir iBlk iFreq ∈ fs
          <-> fft_block_file saveDir iBlk iFreq ∈ fs')) ->
      _are_blocks_present n_blocks n_freq saveDir fs
      = _are_blocks_present n_blocks n_freq saveDir fs').
Proof.
  split.
  - intros Hsub H. apply are_blocks_present_true in H as [Hb Hcases].
    apply are_blocks_present_true. split; [exact Hb|].
    destruct Hcases as [E|[Hf H]]; [left; exact E|right].
    split; [exact Hf|]. intros iBlk iFreq HB HF.
    apply Hsub. apply H; assumption.
  - intros Hagree.
    destruct (_are_blocks_present n_blocks n_freq saveDir fs) eqn:E1;
      destruct (_are_blocks_present n_blocks n_freq saveDir fs') eqn:E2;
      try reflexivity; exfalso.
    + apply are_blocks_present_true in E1 as [Hb Hcases].
      assert (_are_blocks_present n_blocks n_freq saveDir fs' = true) as E.
      { apply are_blocks_present_true. split; [exact Hb|].
        destruct Hcases as [E|[Hf H]]; [left; exact E|right].
        split; [exact Hf|]. intros iBlk iFreq HB HF.
        apply Hagree; [exact HB | exact HF |]. apply H; assumption. }
      congruence.
    + apply are_blocks_present_true in E2 as [Hb Hcases].
      assert (_are_blocks_present n_blocks n_freq saveDir fs = true) as E.
      { apply are_blocks_present_true. split; [exact Hb|].
        destruct Hcases as [E|[Hf H]]; [left; exact E|right].
        split; [exact Hf|]. intros iBlk iFreq HB HF.
        apply Hagree; [exact HB | exact HF |]. apply H; assumption. }
      congruence.
Qed.

Lemma are_blocks_present_monotone_witness :
  _are_blocks_present 3 2 "results"
    (Fixtures.six_files ∪ {[ "results/notes.txt" ]}) = true.
Proof.
  apply (proj1 (are_blocks_present_monotone 3 2 "results" Fixtures.six_files
                  (Fixtures.six_files ∪ {[ "results/notes.txt" ]}))).
  - apply union_subseteq_l.
  - vm_compute. reflexivity.
Defined.

(** X10. The degenerate sizes: a negative block count is never present; no
    blocks, or blocks with no frequencies to look for, are always present,
    even in an empty directory; a negative frequency count with at least one
    block is never present. *)
Theorem are_blocks_present_degenerate (n_blocks n_freq : Z)
    (saveDir : string) (fs : gset string) :
  (n_blocks < 0 -> _are_blocks_present n_blocks n_freq saveDir fs = false)
  /\ _are_blocks_present 0 n_freq saveDir fs = true
  /\ (0 <= n_blocks -> _are_blocks_present n_blocks 0 saveDir fs = true)
  /\ (0 < n_blocks -> n_freq < 0 ->
      _are_blocks_present n_blocks n_freq saveDir fs = false).
Proof.
  split; [|split; [|split]].
  - intros Hneg.
    destruct (_are_blocks_present n_blocks n_freq saveDir fs) eqn:E;
      [|reflexivity].
    apply are_blocks_present_true in E as [Hb _]. lia.
  - apply are_blocks_present_true. split; [lia|]. left. reflexivity.
  - intros Hb. apply are_blocks_present_true. split; [exact Hb|].
    right. split; [lia|]. intros iBlk iFreq _ HF. lia.
  - intros Hb Hf.
    destruct (_are_blocks_present n_blocks n_freq saveDir fs) eqn:E;
      [|reflexivity].
    apply are_blocks_present_true in E as [_ [E|[Hf' _]]]; lia.
Qed.

Lemma are_blocks_present_degenerate_witness :
  _are_blocks_present (-1) 2 "results" Fixtures.six_files = false
  /\ _are_blocks_present 3 0 "results" ∅ = true
  /\ _are_blocks_present 3 (-2) "results" Fixtures.six_files = false.
Proof.
  destruct (are_blocks_present_degenerate (-1) 2 "results" Fixtures.six_files)
    as (H1 & _).
  destruct (are_blocks_present_degenerate 3 0 "results" ∅)
    as (_ & _ & H3 & _).
  destruct (are_blocks_present_degenerate 3 (-2) "results" Fixtures.six_files)
    as (_ & _ & _ & H4).
  split; [apply H1; lia|]. split; [apply H3; lia | apply H4; lia].
Defined.

End CacheMoreFacts.

(** * Further properties of the projector *)

Module ProjectorMoreFacts.
Import Py Resolver Init Complex Projector Artifacts.
Import PyFacts ResolverFacts ComplexFacts ProjectorFacts.

(** *** File names *)

Lemma string_app_assoc (a b c : string) :
  (a +:+ b) +:+ c = a +:+ (b +:+ c).
Proof.
  induction a as [|x a IH]; [reflexivity|].
  change (String x ((a +:+ b) +:+ c) = String x (a +:+ (b +:+ c))).
  f_equal. exact IH.
Qed.

Lemma path_join_relative (a b : string) :
  starts_with_slash b = false -> path_join a b = join_prefix a +:+ b.
Proof.
  intros Hb. unfold path_join, join_prefix. rewrite Hb.
  destruct (bool_decide (a = EmptyString) || ends_with_slash a);
    [reflexivity|].
  rewrite string_app_assoc. reflexivity.
Qed.

Lemma coeffs_not_fft (dir : string) (m i b j : Z) :
  coeffs_file dir m i <> Cache.fft_block_file dir b j.
Proof.
  unfold coeffs_file, Cache.fft_block_file, Cache.fft_block_name.
  rewrite !path_join_relative by reflexivity.
  intros E. apply String.app_inj in E. discriminate E.
Qed.

Lemma coeffs_not_modes (dir : string) (m i m' j : Z) :
  coeffs_file dir m i <> modes_file dir m' j.
Proof.
  unfold coeffs_file, modes_file.
  rewrite !path_join_relative by reflexivity.
  intros E. apply String.app_inj in E. discriminate E.
Qed.

(** *** Replaying writes *)

Lemma lookup_apply_writes_other (ws : list (string * cndarray)) (st : store)
    (path : string) :
  Forall (fun ka => ka.1 <> path) ws ->
  apply_writes ws st !! path = st !! path.
Proof.
  intros Hws. revert st. unfold apply_writes.
  induction Hws as [|[k a] ws Hk _ IH]; intros st; simpl; [reflexivity|].
  rewrite IH. apply lookup_insert_ne. exact Hk.
Qed.

Lemma apply_writes_app (ws1 ws2 : list (string * cndarray)) (st : store) :
  apply_writes (ws1 ++ ws2) st = apply_writes ws2 (apply_writes ws1 st).
Proof. unfold apply_writes. apply fold_left_app. Qed.

(** The value a replay leaves under a path does not depend on what the
    directory held there once the path is written. *)
Lemma lookup_apply_writes_cases (ws : list (string * cndarray))
    (st : store) (path : string) :
  (Forall (fun ka => ka.1 <> path) ws
   /\ apply_writes ws st !! path = st !! path)
  \/ (exists a, forall st', apply_writes ws st' !! path = Some a).
Proof.
  induction ws as [|[k a] ws IH] using rev_ind.
  - left. split; [constructor | reflexivity].
  - destruct (decide (k = path)) as [->|NE].
    + right. exists a. intros st'. rewrite apply_writes_app. simpl.
      apply lookup_insert_eq.
    + destruct IH as [[Hall Heq]|[b Hb]].
      * left. split.
        -- apply Forall_app. split; [exact Hall|].
           constructor; [exact NE | constructor].
        -- rewrite apply_writes_app. simpl.
           rewrite lookup_insert_ne by exact NE. exact Heq.
      * right. exists b. intros st'. rewrite apply_writes_app. simpl.
        rewrite lookup_insert_ne by exact NE. apply Hb.
Qed.

Lemma apply_writes_twice (ws : list (string * cndarray)) (st : store) :
  apply_writes ws (apply_writes ws st) = apply_writes ws st.
Proof.
  apply map_eq. intros path.
  destruct (lookup_apply_writes_cases ws st path) as [[Hall _]|[a Ha]].
  - apply lookup_apply_writes_other. exact Hall.
  - rewrite !Ha. reflexivity.
Qed.

(** *** What one frequency reads and writes *)

Lemma same_inputs_refl (self : spod_obj) (st : store) :
  same_inputs self st st.
Proof. split; reflexivity. Qed.

Lemma same_inputs_insert (self : spod_obj) (st1 st2 : store) (k : string)
    (a : cndarray) :
  same_inputs self st1 st2 ->
  same_inputs self (<[k := a]> st1) (<[k := a]> st2).
Proof.
  intros [Hb Hm]. split.
  - intros iBlk iFreq. rewrite !lookup_insert. destruct (decide _);
      [reflexivity | apply Hb].
  - intros iFreq. rewrite !lookup_insert. destruct (decide _);
      [reflexivity | apply Hm].
Qed.

Lemma same_inputs_coeffs (self : spod_obj) (st : store) (iFreq : Z)
    (a : cndarray) :
  same_inputs self st
    (<[coeffs_file (_save_dir_blocks self) (n_modes_save_of self) iFreq
       := a]> st).
Proof.
  split.
  - intros iBlk j. rewrite lookup_insert_ne; [reflexivity|].
    apply coeffs_not_fft.
  - intros j. rewrite lookup_insert_ne; [reflexivity|].
    apply coeffs_not_modes.
Qed.

Lemma same_inputs_trans (self : spod_obj) (st1 st2 st3 : store) :
  same_inputs self st1 st2 -> same_inputs self st2 st3 ->
  same_inputs self st1 st3.
Proof.
  intros [Hb1 Hm1] [Hb2 Hm2]. split.
  - intros iBlk iFreq. rewrite Hb1. apply Hb2.
  - intros iFreq. rewrite Hm1. apply Hm2.
Qed.

Lemma load_blocks_ext (self : spod_obj) (st1 st2 : store) (nx iFreq : Z)
    (iBlks : list Z) (q : cndarray) :
  same_inputs self st1 st2 ->
  load_blocks st1 (_save_dir_blocks self) nx iFreq iBlks q
  = load_blocks st2 (_save_dir_blocks self) nx iFreq iBlks q.
Proof.
  intros [Hb _]. revert q.
  induction iBlks as [|iBlk rest IH]; intros q; simpl; [reflexivity|].
  unfold np_load. rewrite Hb.
  destruct (st2 !! _) as [a|]; simpl; [|reflexivity].
  destruct (as_column nx a) as [v|]; simpl; [|reflexivity].
  apply IH.
Qed.

(** One iteration computes a matrix from the FFT blocks and the modes only,
    and stores it under the coefficient name. *)
Lemma project_frequency_ext (self : spod_obj) (st1 st2 : store)
    (iFreq : Z) :
  same_inputs self st1 st2 ->
  match project_frequency self st1 iFreq, project_frequency self st2 iFreq
  with
  | Ok s1, Ok s2 =>
      exists a,
        s1 = <[coeffs_file (_save_dir_blocks self) (n_modes_save_of self)
                 iFreq := a]> st1
        /\ s2 = <[coeffs_file (_save_dir_blocks self) (n_modes_save_of self)
                    iFreq := a]> st2
  | Raise e1, Raise e2 => e1 = e2
  | _, _ => False
  end.
Proof.
  intros Hsame. unfold project_frequency.
  destruct (_ || _); [reflexivity|].
  rewrite (load_blocks_ext self st1 st2 _ _ _ _ Hsame).
  destruct (load_blocks st2 _ _ _ _ _) as [Q|e]; simpl; [|reflexivity].
  unfold np_load. rewrite (proj2 Hsame iFreq).
  destruct (st2 !! modes_file _ _ _) as [Psi0|]; simpl; [|reflexivity].
  destruct (reshape_cols Psi0 _) as [Psi|e]; simpl; [|reflexivity].
  destruct (inner_product Psi Q _) as [a|e]; simpl; [|reflexivity].
  exists a. split; reflexivity.
Qed.

Lemma project_loop_ext (self : spod_obj) (iFreqs : list Z)
    (st1 st2 s1 : store) :
  same_inputs self st1 st2 ->
  project_loop self iFreqs st1 = Ok s1 ->
  exists ws,
    s1 = apply_writes ws st1
    /\ project_loop self iFreqs st2 = Ok (apply_writes ws st2)
    /\ Forall (fun ka => exists iFreq,
                 In iFreq iFreqs
                 /\ ka.1 = coeffs_file (_save_dir_blocks self)
                             (n_modes_save_of self) iFreq) ws.
Proof.
  revert st1 st2.
  induction iFreqs as [|i rest IH]; intros st1 st2 Hsame H; simpl in H.
  - inversion H; subst s1. exists []. repeat split. constructor.
  - apply bind_Ok in H as (t1 & Hstep & H).
    pose proof (project_frequency_ext self st1 st2 i Hsame) as Hext.
    rewrite Hstep in Hext.
    destruct (project_frequency self st2 i) as [t2|e] eqn:Hstep2;
      [|destruct Hext].
    destruct Hext as (a & -> & ->).
    destruct (IH _ _ (same_inputs_insert self st1 st2 _ a Hsame) H)
      as (ws & -> & Hrun & Hkeys).
    exists ((coeffs_file (_save_dir_blocks self) (n_modes_save_of self) i, a)
            :: ws).
    split; [reflexivity|]. split.
    + simpl. rewrite Hstep2. simpl. exact Hrun.
    + constructor.
      * exists i. split; [left; reflexivity | reflexivity].
      * eapply Forall_impl; [exact Hkeys|].
        intros ka (j & Hj & Hk). exists j. split; [right; exact Hj|exact Hk].
Qed.

Lemma same_inputs_apply_writes (self : spod_obj) (st : store)
    (ws : list (string * cndarray)) (iFreqs : list Z) :
  Forall (fun ka => exists iFreq,
            In iFreq iFreqs
            /\ ka.1 = coeffs_file (_save_dir_blocks self)
                        (n_modes_save_of self) iFreq) ws ->
  same_inputs self st (apply_writes ws st).
Proof.
  intros Hkeys. split.
  - intros iBlk iFreq. symmetry. apply lookup_apply_writes_other.
    eapply Forall_impl; [exact Hkeys|].
    intros ka (j & _ & ->). apply coeffs_not_fft.
  - intros iFreq. symmetry. apply lookup_apply_writes_other.
    eapply Forall_impl; [exact Hkeys|].
    intros ka (j & _ & ->). apply coeffs_not_modes.
Qed.

(** X11. A run of the projector writes coefficient files only: every other
    path of the directory, and in particular every FFT block file and every
    mode file, holds afterwards what it held before. *)
Theorem get_coefficients_writes_coefficients_only (self : spod_obj)
    (st st' : store) :
  get_coefficients self st = Ok st' ->
  (forall path,
     (forall iFreq, 0 <= iFreq < n_freq (_config self) ->
        path <> coeffs_file (_save_dir_blocks self) (n_modes_save_of self)
                  iFreq) ->
     st' !! path = st !! path)
  /\ same_inputs self st st'.
Proof.
  intros H. unfold get_coefficients in H.
  destruct (project_loop_ext self _ st st st' (same_inputs_refl self st) H)
    as (ws & -> & _ & Hkeys).
  split.
  - intros path Hpath. apply lookup_apply_writes_other.
    eapply Forall_impl; [exact Hkeys|].
    intros ka (j & Hj & ->) E. apply py_range_In in Hj.
    apply (Hpath j Hj). symmetry. exact E.
  - eapply same_inputs_apply_writes. exact Hkeys.
Qed.

Lemma get_coefficients_writes_coefficients_only_witness :
  exists st',
    get_coefficients Fixtures.obj_8 Fixtures.store_8 = Ok st'
    /\ st' !! Cache.fft_block_file "results/nfft4_novlp0_nblks2" 1 0
       = Fixtures.store_8
           !! Cache.fft_block_file "results/nfft4_novlp0_nblks2" 1 0.
Proof.
  destruct (get_coefficients Fixtures.obj_8 Fixtures.store_8)
    as [st'|e] eqn:E; [|vm_compute in E; discriminate E].
  exists st'. split; [reflexivity|].
  destruct (get_coefficients_writes_coefficients_only
              Fixtures.obj_8 Fixtures.store_8 st' E) as [_ [Hb _]].
  symmetry. apply (Hb 1 0).
Defined.

(** X12. Running the projector again on the directory it produced changes
    nothing: the same coefficient matrices are computed and stored. *)
Theorem get_coefficients_idempotent (self : spod_obj) (st st' : store) :
  get_coefficients self st = Ok st' ->
  get_coefficients self st' = Ok st'.
Proof.
  intros H. unfold get_coefficients in *.
  destruct (project_loop_ext self _ st st st' (same_inputs_refl self st) H)
    as (ws & Hst' & _ & Hkeys).
  pose proof (same_inputs_apply_writes self st ws _ Hkeys) as Hsame.
  rewrite <- Hst' in Hsame.
  destruct (project_loop_ext self _ st st' st' Hsame H)
    as (ws' & Hst'' & Hrun & _).
  rewrite Hrun. f_equal.
  rewrite Hst''. apply apply_writes_twice.
Qed.

Lemma get_coefficients_idempotent_witness :
  exists st',
    get_coefficients Fixtures.obj_8 Fixtures.store_8 = Ok st'
    /\ get_coefficients Fixtures.obj_8 st' = Ok st'.
Proof.
  destruct (get_coefficients Fixtures.obj_8 Fixtures.store_8)
    as [st'|e] eqn:E; [|vm_compute in E; discriminate E].
  exists st'. split; [reflexivity|].
  apply (get_coefficients_idempotent Fixtures.obj_8 Fixtures.store_8 st' E).
Defined.


(** *** Missing artifacts *)

Lemma project_frequency_saves_any (self : spod_obj) (st st' : store)
    (iFreq : Z) :
  project_frequency self st iFreq = Ok st' ->
  exists a,
    st' = <[coeffs_file (_save_dir_blocks self) (n_modes_save_of self) iFreq
            := a]> st.
Proof.
  intros H.
  pose proof (project_frequency_ext self st st iFreq
                (same_inputs_refl self st)) as Hext.
  rewrite H in Hext. destruct Hext as (a & Ha & _). eauto.
Qed.

Lemma load_blocks_present (st : store) (dir : string) (nx iFreq : Z)
    (iBlks : list Z) (q q' : cndarray) :
  load_blocks st dir nx iFreq iBlks q = Ok q' ->
  forall iBlk, In iBlk iBlks ->
    is_Some (st !! Cache.fft_block_file dir iBlk iFreq).
Proof.
  revert q. induction iBlks as [|b rest IH]; intros q H iBlk Hin;
    [destruct Hin|].
  simpl in H.
  apply bind_Ok in H as (a & Ha & H).
  apply bind_Ok in H as (v & _ & H).
  destruct Hin as [<-|Hin].
  - unfold np_load in Ha. destruct (st !! _) as [a'|]; [eauto|discriminate].
  - eapply IH; eassumption.
Qed.

Lemma project_frequency_present (self : spod_obj) (st st' : store)
    (iFreq : Z) :
  project_frequency self st iFreq = Ok st' ->
  (forall iBlk, 0 <= iBlk < n_blocks (_config self) ->
     is_Some (st !! Cache.fft_block_file (_save_dir_blocks self) iBlk iFreq))
  /\ is_Some (st !! modes_file (_save_dir_blocks self)
                      (n_modes_save_of self) iFreq).
Proof.
  intros H. unfold project_frequency in H.
  destruct (_ || _); [discriminate H|].
  apply bind_Ok in H as (Q & HQ & H).
  apply bind_Ok in H as (Psi0 & HPsi & _).
  split.
  - intros iBlk Hb. eapply load_blocks_present; [exact HQ|].
    apply py_range_In. exact Hb.
  - unfold np_load in HPsi. destruct (st !! _) as [a|]; [eauto|discriminate].
Qed.

Lemma project_loop_present (self : spod_obj) (iFreqs : list Z)
    (st0 st st' : store) :
  same_inputs self st0 st ->
  project_loop self iFreqs st = Ok st' ->
  forall iFreq, In iFreq iFreqs ->
    (forall iBlk, 0 <= iBlk < n_blocks (_config self) ->
       is_Some (st0 !! Cache.fft_block_file (_save_dir_blocks self)
                         iBlk iFreq))
    /\ is_Some (st0 !! modes_file (_save_dir_blocks self)
                         (n_modes_save_of self) iFreq).
Proof.
  revert st. induction iFreqs as [|i rest IH]; intros st Hsame H iFreq Hin;
    [destruct Hin|].
  simpl in H. apply bind_Ok in H as (st1 & Hstep & H).
  destruct Hin as [<-|Hin].
  - destruct (project_frequency_present self st st1 i Hstep) as [Hb Hm].
    destruct Hsame as [Eb Em]. split.
    + intros iBlk HB. rewrite Eb. apply Hb. exact HB.
    + rewrite Em. exact Hm.
  - apply (IH st1); [|exact H|exact Hin].
    destruct (project_frequency_saves_any self st st1 i Hstep) as [a ->].
    eapply same_inputs_trans; [exact Hsame|]. apply same_inputs_coeffs.
Qed.

(** X13. A missing artifact is fatal: if the FFT block file of some block
    and frequency in range, or the mode file of some frequency in range, is
    not in the directory, the projector raises and returns no directory. *)
Theorem get_coefficients_needs_inputs (self : spod_obj) (st : store) :
  (exists iBlk iFreq,
     0 <= iBlk < n_blocks (_config self)
     /\ 0 <= iFreq < n_freq (_config self)
     /\ st !! Cache.fft_block_file (_save_dir_blocks self) iBlk iFreq = None)
  \/ (exists iFreq,
        0 <= iFreq < n_freq (_config self)
        /\ st !! modes_file (_save_dir_blocks self) (n_modes_save_of self)
                   iFreq = None) ->
  exists e, get_coefficients self st = Raise e.
Proof.
  intros Hmiss.
  destruct (get_coefficients self st) as [st'|e] eqn:E; [|eauto].
  exfalso. unfold get_coefficients in E.
  pose proof (project_loop_present self _ st st st'
                (same_inputs_refl self st) E) as Hall.
  destruct Hmiss as [(iBlk & iFreq & HB & HF & Hnone)|(iFreq & HF & Hnone)].
  - destruct (Hall iFreq (proj2 (py_range_In _ _) HF)) as [Hb _].
    specialize (Hb iBlk HB). rewrite Hnone in Hb.
    destruct Hb as [x Hx]. discriminate Hx.
  - destruct (Hall iFreq (proj2 (py_range_In _ _) HF)) as [_ Hm].
    rewrite Hnone in Hm. destruct Hm as [x Hx]. discriminate Hx.
Qed.

Lemma get_coefficients_needs_inputs_witness :
  exists e,
    get_coefficients Fixtures.obj_8
      (delete (Cache.fft_block_file "results/nfft4_novlp0_nblks2" 1 2)
         Fixtures.store_8) = Raise e.
Proof.
  apply get_coefficients_needs_inputs.
  left. exists 1, 2. split; [simpl; lia|]. split; [simpl; lia|].
  apply lookup_delete_eq.
Defined.


(** *** Identity modes *)

Lemma Cmul_0_l (z : C) : Cmul C0 z = C0.
Proof. destruct z as [x y]. unfold Cmul, C0. simpl. f_equal; ring. Qed.

Lemma Cmul_1_l (z : C) : Cmul (mkC 1 0) z = z.
Proof. destruct z as [x y]. unfold Cmul. simpl. f_equal; ring. Qed.

Lemma Cmul_1_r (z : C) : Cmul z (of_real 1) = z.
Proof. destruct z as [x y]. unfold Cmul, of_real. simpl. f_equal; ring. Qed.

Lemma Cadd_0_l (z : C) : Cadd C0 z = z.
Proof. destruct z as [x y]. unfold Cadd, C0. simpl. f_equal; ring. Qed.

Lemma Cadd_0_r (z : C) : Cadd z C0 = z.
Proof. destruct z as [x y]. unfold Cadd, C0. simpl. f_equal; ring. Qed.

Lemma Csum_succ (n : nat) (f : Z -> C) :
  Csum (Z.of_nat (S n)) f = Cadd (Csum (Z.of_nat n) f) (f (Z.of_nat n)).
Proof.
  unfold Csum, py_range. rewrite !Nat2Z.id.
  rewrite seq_S, !map_app, fold_left_app. reflexivity.
Qed.

Lemma Csum_zero (n : nat) (f : Z -> C) :
  (forall x, (x < n)%nat -> f (Z.of_nat x) = C0) ->
  Csum (Z.of_nat n) f = C0.
Proof.
  induction n as [|n IH]; intros Hf; [reflexivity|].
  rewrite Csum_succ. rewrite IH by (intros x Hx; apply Hf; lia).
  rewrite (Hf n) by lia. reflexivity.
Qed.

(** A sum whose terms vanish except at [k] is its term at [k]. *)
Lemma Csum_single (n k : nat) (f : Z -> C) :
  (k < n)%nat ->
  (forall x, (x < n)%nat -> x <> k -> f (Z.of_nat x) = C0) ->
  Csum (Z.of_nat n) f = f (Z.of_nat k).
Proof.
  induction n as [|n IH]; intros Hk Hf; [lia|].
  rewrite Csum_succ.
  destruct (decide (k = n)) as [->|NE].
  - rewrite Csum_zero; [apply Cadd_0_l|].
    intros x Hx. apply Hf; lia.
  - rewrite IH; [|lia|intros x Hx Hne; apply Hf; lia].
    rewrite (Hf n) by lia. apply Cadd_0_r.
Qed.

Lemma at2_ones_col (P x : Z) :
  0 <= x < P -> at2 (of_real_array (np_ones_col P)) x 0 = of_real 1.
Proof.
  intros Hx. unfold at2, of_real_array, np_ones_col. simpl.
  replace (Z.to_nat (x * 1 + 0)) with (Z.to_nat x) by lia.
  rewrite (nth_indep _ C0 (of_real 1))
    by (rewrite length_map, repeat_length; lia).
  rewrite map_nth. f_equal. apply nth_repeat.
Qed.

(** X14. Projection onto the identity basis with uniform weights gives back
    the FFT blocks: the coefficient of block [b] on mode [k] is the entry of
    row [k] in column [b] of [Q_hat_f]. *)
Theorem identity_modes_round_trip (Q : cndarray) (P nb : Z) :
  0 <= P -> cshape Q = [P; nb] ->
  exists a,
    inner_product (np_eye P) Q (of_real_array (np_ones_col P)) = Ok a
    /\ cshape a = [nb; P]
    /\ forall b k, 0 <= b < nb -> 0 <= k < P -> at2 a b k = at2 Q k b.
Proof.
  intros HP HQ.
  destruct (inner_product_entries (np_eye P) Q
              (of_real_array (np_ones_col P)) P P nb eq_refl HQ eq_refl)
    as (a & Ha & Hs & Hent).
  exists a. split; [exact Ha|]. split; [exact Hs|].
  intros b k Hb Hk. rewrite Hent by assumption.
  rewrite <- (Z2Nat.id P) at 1 by lia.
  rewrite (Csum_single (Z.to_nat P) (Z.to_nat k)).
  - rewrite Z2Nat.id by lia. unfold np_eye.
    rewrite at2_mat by lia. rewrite Z.eqb_refl.
    rewrite at2_ones_col by lia. rewrite Cmul_1_r. apply Cmul_1_l.
  - lia.
  - intros x Hx Hne. unfold np_eye. rewrite at2_mat by lia.
    destruct (Z.eqb_spec (Z.of_nat x) k) as [E|_]; [lia|].
    apply Cmul_0_l.
Qed.

Lemma identity_modes_round_trip_witness :
  exists a,
    inner_product (np_eye 1) Fixtures.Q_hat_8
      (of_real_array (np_ones_col 1)) = Ok a
    /\ at2 a 1 0 = at2 Fixtures.Q_hat_8 0 1.
Proof.
  destruct (identity_modes_round_trip Fixtures.Q_hat_8 1 2
              ltac:(lia) eq_refl) as (a & Ha & _ & Hent).
  exists a. split; [exact Ha|]. apply Hent; lia.
Defined.


End ProjectorMoreFacts.
